(* ===== verification/_CoqProject ===== *)
-Q . S2P
Prelude.v
JsRuntime.v
Catalog.v
Ingestion.v
Submission.v
Renderer.v
System.v
FormView.v
PageProperties.v
Interaction.v
Refinement.v
