(* ===== verification/Prelude.v ===== *)
(** * DIP: a verification development of the image-filter client

    The repository (src/DIP/src) is a React client that lets a user pick
    or drop an image, apply one of six named filters on a remote
    processing server, and compare the result with the original.
    The program has four parts, composed as in App.jsx:

    - [App] (src/DIP/src/App.jsx) owns the shared state
      [filename], [filter], [isProcessing], [mousePosition] and
      [activeTab]; it mounts [UploadForm] and [ProcessedImage] on the
      "upload" tab and a static filter catalog on the "about" tab, and
      hands the children its state setters (UploadForm) or its state
      as props (ProcessedImage).
    - [UploadForm] (components/UploadForm.jsx) holds the selected
      file, the drag flag, the hovered filter, the preview blob URL and
      the error message.  Its handlers [handleFileChange],
      [handleDrag], [handleDrop] validate a candidate file (size limit,
      and on the drop path the extension check [allowed_file]); a
      [useEffect] keyed on the selected file creates and revokes the
      preview object URL; [handleUpload] posts the file and the filter
      to the server and, after the await, calls the App setters.
    - [ProcessedImage] (components/ProcessedImage.jsx) renders the
      original and the processed image side by side or under a
      draggable comparison slider whose position is
      [clamp(x / width * 100, 0, 100)].
    - [Spinner] (components/Spinner.jsx) is a constant loading view.

    ** Files of the development, in dependency order

    - [Prelude] (this file): the [dip_scope] notations, the [dip] hint
      database, the shared tactics and the generic lemmas on strings,
      options and rationals.
    - [JsRuntime]: the JavaScript and DOM built-ins the code calls,
      modelled from their ECMAScript/DOM definitions (they are not code
      of the repository): [String.prototype.split], [pop],
      [toLowerCase], [replace], [charAt]/[toUpperCase]/[slice], [join],
      the [||] operator on strings, IEEE numbers as rationals extended
      with [Infinity] and [NaN] together with [/], [*], [Math.min] and
      [Math.max], and the object-URL store of [URL.createObjectURL] /
      [URL.revokeObjectURL].
    - [Catalog]: the fixed filter catalog [filterInfo] of UploadForm.jsx
      and the "About Filters" list of App.jsx.
    - [Ingestion]: UploadForm's local state, [allowed_file],
      [handleFileChange], [handleDrag], [handleDrop], the hover
      handlers and the preview effect.  Handlers return the new local
      state together with the App setter calls they make
      ([app_cmd]: the props interface between UploadForm and App).
    - [Submission]: [handleUpload], split at its only [await] into the
      synchronous part (guard, [setIsProcessing(true)], the POST) and
      the continuation run when the response (or the failure) arrives.
    - [Renderer]: ProcessedImage's local state, its handlers (view
      mode, mouse and touch tracking, image load), its [filter] effect
      and its render function as a view description.
    - [System]: App's state, the whole page as one state record (App,
      the mounted UploadForm and ProcessedImage instances, the requests
      in flight, the blob store, the network log), the event type
      (every DOM event the page listens to and every network
      completion), the executable [step] function that dispatches an
      event the way React does (handlers only exist while their element
      is rendered; disabled buttons do not fire; unmounting runs the
      effect cleanups), and the [reachable] relation.  The type class
      [IngestionHandler] is the interface between UploadForm's
      ingestion handlers and the page: a handler leaves the preview to
      the effect and calls no App setter but [setFilename]; the page's
      invariants are proved against the class and each handler is an
      instance.
    - [FormView]: the JSX of UploadForm and of App as view
      descriptions (drop area, error box, filter buttons with their
      tooltips; the light, the tab buttons, the body of each tab).
    - [PageProperties]: the properties of whole sessions, stated on
      [System.step], [System.run] and [System.reachable]: the object-URL
      discipline, submissions and their interleavings, the slider, the
      tab switch.
    - [Interaction]: the comparison renderer as the user drives it:
      the view-mode buttons, press and release, mouse and touch moves.
    - [Refinement]: the abstract ProcessingState machine of the
      specification (Idle, InFlight, Succeeded, Failed), the map from
      page events to its events, and the simulation of that machine by
      [System.step] under sequential use (no filter click while a
      request is in flight), with the case where the code departs from
      it.

    ** What the theorems show

    - validation (Ingestion): the size limit (15 MiB, inclusive), the
      extension check of the drop path, that the browse path skips the
      extension check, and what [allowed_file] accepts;
    - submission (Submission): no request without a selected file;
      the flag is raised before the await and cleared on every path
      after it; a filter is published exactly on success; the error
      message of each failure path;
    - rendering (Renderer): the slider position is the specification's
      clamp over a container of positive width and NaN at the edge of
      a zero-width one; the processed image is shown only when [filter]
      is set and no request is pending in the App flag; the views
      while processing and with a result; [formatFilterName] equals a
      one-pass reference;
    - interaction (Interaction): a drag ends on release, leave and
      touch end and keeps
      the slider where it was; the view mode changes only while a
      result is on screen;
    - the page (PageProperties): in every reachable state the live
      object URLs are exactly the mounted form's preview and no URL is
      revoked twice; the about tab holds no live URL; a second
      selection revokes the first preview; a success shows
      [processed/<filter>_<name>]; a transport failure keeps the
      previous result; once every request in flight has settled, in
      any order, none is pending and the flag is clear; overlapping
      submissions clear the flag early; a late response spares a
      remounted form while its App setters apply; a file chosen in the
      picker pairs the old filter with the new name; the slider stays in [0,100] on
      every reachable page;
    - the views (FormView): the page is never half mounted; every
      object URL the form displays is live and unrevoked; at most one
      tooltip is shown, the hovered filter's;
    - the contract (Refinement): every sequential run refines the
      ProcessingState machine; an in-flight submission always resolves
      to one terminal state; success exposes the submitted pair.  A
      concrete run (an [Example], not a property) shows the processed
      image of an earlier success staying on screen in Failed, against
      the specification's rendering invariant.

    ** Modelling choices

    JavaScript numbers are modelled as exact rationals (no rounding)
    extended with [+Infinity], [-Infinity] and [NaN]; the clamping
    arguments use only comparisons, which IEEE arithmetic performs
    exactly.  A zero divisor is taken to be [+0] (a DOMRect width is
    never negative).  Strings are [String.string]; case conversion is
    the ASCII one, which agrees with JavaScript's Unicode conversion on
    every character whose image can be one of the ASCII letters the
    code compares against.  Files are records with an identity, a name
    and a byte size; React's [Object.is] comparison of state values is
    the comparison of identities.  There is no fuel: every handler and
    [step] is structurally terminating, and traces are finite lists of
    events.

    Not modelled: CSS classes, animation and layout (presentation,
    including the styling of the light that follows the pointer,
    whose position is modelled), [console.error] (no state), the
    Spinner component (a constant view; the model records where it is
    shown), the download click's temporary DOM link (its [href] and
    name are part of the view), and the server itself (its responses
    are the environment's choice in the events). *)

From stdpp Require Import base list strings sets.
From Stdlib Require Import QArith Lqa.

(** The notation scope of the development. *)
Declare Scope dip_scope.
Delimit Scope dip_scope with dip.

Open Scope dip_scope.

(** The hint databases of the development: [dip] for [auto] and
    [dip_rw] for [autorewrite]. *)
Create HintDb dip.
Create Rewrite HintDb dip_rw.

(** ** Generic lemmas on strings

    stdpp writes string concatenation [s1 +:+ s2] and declares
    [String.append] [simpl never]; the two equations below unfold it. *)

Lemma string_append_nil (b : string) : "" +:+ b = b.
Proof. reflexivity. Qed.

Lemma string_append_cons (x : Ascii.ascii) (a b : string) :
  String x a +:+ b = String x (a +:+ b).
Proof. reflexivity. Qed.

#[export] Hint Rewrite string_append_nil string_append_cons : dip_rw.

Lemma string_eqb_refl_true (s : string) : String.eqb s s = true.
Proof. apply String.eqb_refl. Qed.

Lemma string_eqb_false_ne (s t : string) : s ≠ t -> String.eqb s t = false.
Proof. intros H. by apply String.eqb_neq. Qed.

Lemma string_append_assoc (a b c : string) :
  (a +:+ b) +:+ c = a +:+ (b +:+ c).
Proof.
  induction a as [|x a IH]; [done | rewrite !string_append_cons, IH; done].
Qed.

Lemma string_append_empty_r (a : string) : a +:+ "" = a.
Proof. induction a as [|x a IH]; [done | rewrite string_append_cons, IH; done]. Qed.

#[export] Hint Rewrite string_eqb_refl_true string_append_empty_r : dip_rw.

(** ** Generic lemmas on rationals *)

Lemma Qle_bool_false_lt (x y : Q) : Qle_bool x y = false -> (y < x)%Q.
Proof.
  intros H. apply Qnot_le_lt. intros Hle.
  apply Qle_bool_iff in Hle. congruence.
Qed.

Lemma Qeq_bool_false_neq (x y : Q) : Qeq_bool x y = false -> ~ (x == y)%Q.
Proof. intros H Heq. apply Qeq_bool_iff in Heq. congruence. Qed.

#[export] Hint Resolve Qle_bool_imp_le Qle_bool_false_lt Qeq_bool_eq
  Qeq_bool_false_neq : dip.

(** [case_Qle x y] splits on [Qle_bool x y] and turns the boolean into
    the order fact it decides. *)
Ltac case_Qle x y :=
  let H := fresh "Hle" in
  destruct (Qle_bool x y) eqn:H;
  [apply Qle_bool_imp_le in H | apply Qle_bool_false_lt in H].

(** [case_Qeq x y] does the same for [Qeq_bool]. *)
Ltac case_Qeq x y :=
  let H := fresh "Heq" in
  destruct (Qeq_bool x y) eqn:H;
  [apply Qeq_bool_eq in H | apply Qeq_bool_false_neq in H].

(** ** Generic lemmas on lists *)

(** Filtering keeps the keys of a list distinct. *)
Lemma NoDup_map_filter {A B} (f : A -> B) (P : A -> bool) (l : list A) :
  NoDup (map f l) -> NoDup (map f (List.filter P l)).
Proof.
  induction l as [|x l IH]; simpl; [done|].
  intros [Hx Hl]%NoDup_cons. destruct (P x); simpl; [|by apply IH].
  constructor; [|by apply IH].
  intros Hin. apply Hx. apply list_elem_of_In in Hin. apply list_elem_of_In.
  apply in_map_iff in Hin as (y & <- & Hy). apply filter_In in Hy as [Hy _].
  by apply in_map.
Qed.

#[export] Hint Resolve NoDup_map_filter : dip.

(** [omap] after [map] keeps nothing when no element is kept. *)
Lemma omap_map_nil {A B C} (f : B -> option C) (g : A -> B) (l : list A) :
  (forall x, x ∈ l -> f (g x) = None) -> omap f (map g l) = [].
Proof.
  induction l as [|x l IH]; intros Hl; [done|]. simpl.
  rewrite (Hl x) by set_solver. apply IH. intros y Hy. apply Hl. set_solver.
Qed.

(** [omap] after [map] keeps at most one element of a duplicate-free
    list when at most one element is kept. *)
Lemma omap_map_le1 {A B C} (f : B -> option C) (g : A -> B) (l : list A) :
  NoDup l ->
  (forall x y, x ∈ l -> y ∈ l -> is_Some (f (g x)) -> is_Some (f (g y)) -> x = y) ->
  (length (omap f (map g l)) <= 1)%nat.
Proof.
  induction l as [|x l IH]; intros Hnd Huniq; simpl; [lia|].
  apply NoDup_cons in Hnd as [Hx Hnd].
  destruct (f (g x)) as [c|] eqn:Hfx; simpl.
  - rewrite omap_map_nil; [simpl; lia|]. intros y Hy.
    destruct (f (g y)) eqn:Hfy; [|done]. exfalso. apply Hx.
    rewrite (Huniq x y); [done | set_solver | set_solver | by eexists | by eexists].
  - apply IH; [done|]. intros y z Hy Hz. apply Huniq; set_solver.
Qed.

(** [List.filter] respects permutations. *)
Lemma Permutation_list_filter {A} (f : A -> bool) (l1 l2 : list A) :
  l1 ≡ₚ l2 -> List.filter f l1 ≡ₚ List.filter f l2.
Proof.
  induction 1 as [|x l1 l2 _ IH|x y l|l1 l2 l3 _ IH1 _ IH2]; simpl.
  - done.
  - destruct (f x); [by constructor | done].
  - destruct (f x), (f y); [apply perm_swap | done | done | done].
  - by etrans.
Qed.
