(* ===== verification/JsRuntime.v ===== *)
(** * JsRuntime: the JavaScript and DOM built-ins the client calls

    These definitions model the ECMAScript and DOM operations the
    components use, as the standards define them; they are not code of
    the repository.  [JsString] holds the string methods, [JsNumber]
    the IEEE numbers (exact rationals with the infinities and NaN) and
    the [Math] functions, [ObjectURL] the blob-URL registry behind
    [URL.createObjectURL] and [URL.revokeObjectURL]. *)

From stdpp Require Import base list strings gmap.
From Stdlib Require Import QArith Lqa.
From S2P Require Import Prelude.

Module JsString.

(** [s.split(sep)] for a one-character separator: the pieces between
    the separators, never an empty array. *)
Fixpoint split (sep : Ascii.ascii) (s : string) : list string :=
  match s with
  | EmptyString => [""]
  | String c s' =>
      let rest := split sep s' in
      if decide (c = sep) then "" :: rest
      else match rest with
           | r :: rs => String c r :: rs
           | [] => [String c ""]
           end
  end.

(** [arr.pop()]: the last element, [undefined] ([None]) on an empty
    array. *)
Definition pop (l : list string) : option string := last l.

(** [toLowerCase] and [toUpperCase] on the ASCII letters. *)
Definition ascii_lower (c : Ascii.ascii) : Ascii.ascii :=
  let n := Ascii.N_of_ascii c in
  if (65 <=? n)%N && (n <=? 90)%N then Ascii.ascii_of_N (n + 32) else c.

Definition ascii_upper (c : Ascii.ascii) : Ascii.ascii :=
  let n := Ascii.N_of_ascii c in
  if (97 <=? n)%N && (n <=? 122)%N then Ascii.ascii_of_N (n - 32) else c.

Fixpoint to_lower (s : string) : string :=
  match s with
  | EmptyString => EmptyString
  | String c s' => String (ascii_lower c) (to_lower s')
  end.

Fixpoint to_upper (s : string) : string :=
  match s with
  | EmptyString => EmptyString
  | String c s' => String (ascii_upper c) (to_upper s')
  end.

(** [arr.includes(x)] on an array of strings (SameValueZero is string
    equality). *)
Definition includes (l : list string) (x : string) : bool :=
  existsb (String.eqb x) l.

(** [s.replace(pat, rep)] with a one-character string pattern: only
    the first occurrence is replaced. *)
Fixpoint replace_first (pat : Ascii.ascii) (rep s : string) : string :=
  match s with
  | EmptyString => EmptyString
  | String c s' =>
      if decide (c = pat) then rep +:+ s' else String c (replace_first pat rep s')
  end.

(** [s.charAt(0)] and [s.slice(1)]. *)
Definition char_at0 (s : string) : string :=
  match s with
  | EmptyString => EmptyString
  | String c _ => String c EmptyString
  end.

Definition slice1 (s : string) : string :=
  match s with
  | EmptyString => EmptyString
  | String _ s' => s'
  end.

(** [arr.join(sep)]. *)
Fixpoint join (sep : string) (l : list string) : string :=
  match l with
  | [] => ""
  | [x] => x
  | x :: l' => x +:+ sep +:+ join sep l'
  end.

(** A value that is a string or [undefined], as the string [+] and
    template literals convert it. *)
Definition to_str (o : option string) : string := default "undefined" o.

(** A string-or-null value in a template literal: [null] prints as
    ["null"]. *)
Definition null_to_str (o : option string) : string := default "null" o.

(** Truthiness of a string-or-null value: [null], [undefined] and [""]
    are falsy. *)
Definition truthy (o : option string) : bool :=
  match o with
  | Some s => negb (String.eqb s "")
  | None => false
  end.

(** [o || d] for a string-or-undefined [o] and a string [d]. *)
Definition or_else (o : option string) (d : string) : string :=
  if truthy o then default d o else d.

(** Whether a character occurs in a string (used in statements). *)
Fixpoint has_char (c : Ascii.ascii) (s : string) : bool :=
  match s with
  | EmptyString => false
  | String x s' => bool_decide (x = c) || has_char c s'
  end.

(** ** Lemmas *)

Lemma split_nonempty sep s : split sep s ≠ [].
Proof.
  induction s as [|c s IH]; simpl; [done|].
  case_decide; [done|]. by destruct (split sep s).
Qed.

Lemma split_no_sep sep s : has_char sep s = false -> split sep s = [s].
Proof.
  induction s as [|c s IH]; simpl; [done|].
  intros [Hc Hs]%orb_false_iff. rewrite IH by done.
  apply bool_decide_eq_false in Hc. by case_decide.
Qed.

(** Splitting at a separator concatenates the pieces of both sides. *)
Lemma split_app_sep sep a b :
  split sep (a +:+ String sep b) = split sep a ++ split sep b.
Proof.
  induction a as [|c a IH]; rewrite ?string_append_cons; simpl.
  - by case_decide.
  - rewrite IH. case_decide; [done|].
    pose proof (split_nonempty sep a) as Hne.
    by destruct (split sep a).
Qed.

Lemma pop_split_app_sep sep a b :
  has_char sep b = false -> pop (split sep (a +:+ String sep b)) = Some b.
Proof.
  intros Hb. unfold pop. rewrite split_app_sep, (split_no_sep sep b) by done.
  by rewrite last_app.
Qed.

Lemma pop_split_no_sep sep s :
  has_char sep s = false -> pop (split sep s) = Some s.
Proof. intros H. unfold pop. by rewrite split_no_sep. Qed.

End JsString.

Module JsNumber.

(** An IEEE double as the code can observe it: a finite value (kept
    in lowest terms with [Qred], so that equal values are equal
    terms), an infinity, or NaN. *)
Inductive num :=
  | Fin (q : Q)
  | PosInf
  | NegInf
  | NaN.

(** [a / b] on finite operands; a zero divisor is [+0]. *)
Definition div (a b : Q) : num :=
  if Qeq_bool b 0 then
    if Qeq_bool a 0 then NaN else if Qle_bool 0 a then PosInf else NegInf
  else Fin (Qred (a / b)).

(** [n * k] for a finite constant [k]. *)
Definition mul (n : num) (k : Q) : num :=
  match n with
  | Fin q => Fin (Qred (q * k))
  | PosInf => if Qeq_bool k 0 then NaN else if Qle_bool 0 k then PosInf else NegInf
  | NegInf => if Qeq_bool k 0 then NaN else if Qle_bool 0 k then NegInf else PosInf
  | NaN => NaN
  end.

(** [a <= b], false when either side is NaN. *)
Definition le (a b : num) : bool :=
  match a, b with
  | NaN, _ | _, NaN => false
  | NegInf, _ => true
  | _, PosInf => true
  | Fin x, Fin y => Qle_bool x y
  | _, _ => false
  end.

(** [Math.min(a, b)] and [Math.max(a, b)]: NaN if either argument is. *)
Definition min (a b : num) : num :=
  match a, b with
  | NaN, _ | _, NaN => NaN
  | _, _ => if le a b then a else b
  end.

Definition max (a b : num) : num :=
  match a, b with
  | NaN, _ | _, NaN => NaN
  | _, _ => if le a b then b else a
  end.

(** A finite number in the closed interval [[lo, hi]]. *)
Definition in_range (lo hi : Q) (n : num) : Prop :=
  match n with
  | Fin q => (lo <= q <= hi)%Q
  | _ => False
  end.

(** ** Lemmas *)

(** [Math.max(lo, Math.min(hi, n))] is in [[lo, hi]] unless [n] is
    NaN. *)
Lemma clamp_in_range (lo hi : Q) (n : num) :
  (lo <= hi)%Q -> n ≠ NaN -> in_range lo hi (max (Fin lo) (min (Fin hi) n)).
Proof.
  intros Hlh Hn. destruct n as [q| | |]; simpl; try done.
  - case_Qle hi q; simpl.
    + case_Qle lo hi; simpl; lra.
    + case_Qle lo q; simpl; lra.
  - case_Qle lo hi; simpl; lra.
  - simpl. lra.
Qed.

Lemma Qred_idem (q : Q) : Qred (Qred q) = Qred q.
Proof. apply Qred_complete, Qred_correct. Qed.

(** Division by a positive number, then scaling, is finite. *)
Lemma mul_div_pos (a b k : Q) :
  (0 < b)%Q -> mul (div a b) k = Fin (Qred (a / b * k)).
Proof.
  intros Hb. unfold div. case_Qeq b 0; [lra|]. simpl. f_equal.
  apply Qred_complete. rewrite Qred_correct. reflexivity.
Qed.

(** Division by [+0]. *)
Lemma div_zero (a b : Q) :
  (b == 0)%Q ->
  div a b = if Qeq_bool a 0 then NaN else if Qle_bool 0 a then PosInf else NegInf.
Proof. intros Hb. unfold div. by rewrite (Qeq_eq_bool _ _ Hb). Qed.

(** The clamp leaves a value already in range, in lowest terms,
    unchanged. *)
Lemma clamp_id (lo hi q : Q) :
  Qred lo = lo -> Qred hi = hi -> Qred q = q -> (lo <= q <= hi)%Q ->
  max (Fin lo) (min (Fin hi) (Fin q)) = Fin q.
Proof.
  intros Hlo Hhi Hq [H1 H2]. simpl. case_Qle hi q.
  - assert (q = hi) as ->.
    { rewrite <- Hq, <- Hhi. apply Qred_complete. by apply Qle_antisym. }
    simpl. case_Qle lo hi; [done | lra].
  - simpl. case_Qle lo q; [done | lra].
Qed.

(** The clamp saturates at either end. *)
Lemma clamp_hi (lo hi q : Q) :
  (lo <= hi)%Q -> (hi <= q)%Q -> max (Fin lo) (min (Fin hi) (Fin q)) = Fin hi.
Proof.
  intros H1 H2. simpl. case_Qle hi q; [|lra]. simpl. case_Qle lo hi; [done | lra].
Qed.

Lemma clamp_lo (lo hi q : Q) :
  Qred lo = lo -> Qred hi = hi -> Qred q = q ->
  (lo <= hi)%Q -> (q <= lo)%Q -> max (Fin lo) (min (Fin hi) (Fin q)) = Fin lo.
Proof.
  intros Hlo Hhi Hq H1 H2. simpl. case_Qle hi q; simpl.
  - case_Qle lo hi; [|lra]. f_equal.
    rewrite <- Hlo, <- Hhi. apply Qred_complete. lra.
  - case_Qle lo q; [|done]. f_equal.
    rewrite <- Hq, <- Hlo. apply Qred_complete. lra.
Qed.

End JsNumber.

Module ObjectURL.

(** The blob-URL registry: the live URLs, the next fresh URL, and the
    log of [revokeObjectURL] calls in order.  A URL is identified by a
    number. *)
Record store := {
  live : gset nat;
  next_url : nat;
  revoked : list nat
}.

Definition empty : store := {| live := ∅; next_url := 0; revoked := [] |}.

(** [URL.createObjectURL(file)]: a fresh URL, now live. *)
Definition create (st : store) : nat * store :=
  (next_url st,
   {| live := {[next_url st]} ∪ live st; next_url := S (next_url st);
      revoked := revoked st |}).

(** [URL.revokeObjectURL(u)]: [u] is no longer live; the call is
    logged. *)
Definition revoke (u : nat) (st : store) : store :=
  {| live := live st ∖ {[u]}; next_url := next_url st;
     revoked := revoked st ++ [u] |}.

(** Well-formedness of the registry: each URL is revoked at most once,
    a live URL has not been revoked, and every URL seen is below the
    next fresh one. *)
Definition wf (st : store) : Prop :=
  NoDup (revoked st) /\
  (forall u : nat, u ∈ live st -> u ∉ revoked st) /\
  (forall u : nat, u ∈ live st \/ u ∈ revoked st -> (u < next_url st)%nat).

Lemma empty_wf : wf empty.
Proof. unfold wf, empty; simpl. split_and!; [constructor | set_solver | set_solver]. Qed.

Lemma create_wf st : wf st -> wf (create st).2.
Proof.
  intros (Hnd & Hdis & Hlt). unfold wf, create; simpl. split_and!; [done| |].
  - intros u [->%elem_of_singleton | Hu]%elem_of_union.
    + intros Hr. specialize (Hlt (next_url st) (or_intror Hr)). lia.
    + by apply Hdis.
  - intros u [[->%elem_of_singleton | Hu]%elem_of_union | Hu]; [lia| |];
      specialize (Hlt u); naive_solver lia.
Qed.

Lemma create_live st : live (create st).2 = {[next_url st]} ∪ live st.
Proof. done. Qed.

Lemma revoke_wf (u : nat) st : wf st -> u ∈ live st -> wf (revoke u st).
Proof.
  intros (Hnd & Hdis & Hlt) Hu. unfold wf, revoke; simpl. split_and!.
  - apply NoDup_app. split_and!; [done | | apply NoDup_singleton].
    intros x Hx ->%list_elem_of_singleton. by apply (Hdis u).
  - intros v [Hv Hne]%elem_of_difference.
    rewrite elem_of_app, list_elem_of_singleton. intros [Hr | ->]; [by apply (Hdis v)|].
    set_solver.
  - intros v [[Hv _]%elem_of_difference | [Hv | ->%list_elem_of_singleton]%elem_of_app];
      apply Hlt; auto.
Qed.

Lemma revoke_live (u : nat) st : live (revoke u st) = live st ∖ {[u]}.
Proof. done. Qed.

End ObjectURL.
