(* ===== verification/Catalog.v ===== *)
(** * Catalog: the fixed filter catalog

    The six filter identifiers of [filterInfo] in
    src/DIP/src/components/UploadForm.jsx, with their descriptions and
    icons in the order [Object.entries] lists them, and the
    "About Filters" list of src/DIP/src/App.jsx. *)

From stdpp Require Import base list strings sets.
From S2P Require Import Prelude.

Module Catalog.

(** The keys of [filterInfo]. *)
Inductive filter_kind :=
  | Sharpen
  | Blur
  | EdgeX
  | Emboss
  | Outline
  | HighPass.

#[export] Instance filter_kind_eq_dec : EqDecision filter_kind.
Proof. solve_decision. Defined.

(** The identifier string a filter is sent and named under. *)
Definition filter_key (k : filter_kind) : string :=
  match k with
  | Sharpen => "sharpen"
  | Blur => "blur"
  | EdgeX => "edge_x"
  | Emboss => "emboss"
  | Outline => "outline"
  | HighPass => "high_pass"
  end.

Record filter_info := {
  description : string;
  icon : string
}.

(** [filterInfo], as the list [Object.entries(filterInfo)] returns. *)
Definition filterInfo : list (filter_kind * filter_info) :=
  [(Sharpen, {| description := "Enhance edge details and clarity"; icon := "✧" |});
   (Blur, {| description := "Smooth out noise and details"; icon := "◎" |});
   (EdgeX, {| description := "Detect horizontal edges and boundaries"; icon := "⟷" |});
   (Emboss, {| description := "Create 3D relief effect"; icon := "◢" |});
   (Outline, {| description := "Extract image contours"; icon := "◇" |});
   (HighPass, {| description := "Highlight fine details and textures"; icon := "◈" |})].

(** The static list rendered on the "about" tab of App.jsx. *)
Definition about_filters : list (string * string) :=
  [("Sharpen", "Enhances edge details to make the image appear more crisp and detailed.");
   ("Blur", "Smooths out the image by reducing noise and detail, giving a softer appearance.");
   ("Edge Detection", "Identifies and highlights edges and boundaries within the image.");
   ("Emboss", "Creates a 3D relief effect that makes the image appear raised or stamped.");
   ("Outline", "Extracts and emphasizes the contours and shapes in the image.");
   ("High Pass", "Filters out low-frequency information while preserving high-frequency details.")].

(** ** Lemmas *)

Lemma filter_key_inj (k1 k2 : filter_kind) : filter_key k1 = filter_key k2 -> k1 = k2.
Proof. destruct k1, k2; simpl; congruence. Qed.

(** Every filter identifier has an entry in the catalog, so every
    filter has its button. *)
Lemma filterInfo_complete (k : filter_kind) : k ∈ map fst filterInfo.
Proof. destruct k; simpl; set_solver. Qed.

(** The catalog has one entry per filter. *)
Lemma filterInfo_entry_unique (x y : filter_kind * filter_info) :
  x ∈ filterInfo -> y ∈ filterInfo -> filter_key x.1 = filter_key y.1 -> x = y.
Proof.
  intros Hx Hy Hk. apply filter_key_inj in Hk.
  unfold filterInfo in Hx, Hy. set_unfold in Hx. set_unfold in Hy.
  destruct_or! Hx; destruct_or! Hy; subst; simpl in Hk; congruence.
Qed.

Lemma filterInfo_NoDup : NoDup filterInfo.
Proof.
  apply NoDup_ListNoDup. unfold filterInfo.
  repeat constructor; simpl; intros ?; destruct_or?; congruence.
Qed.

End Catalog.
