(* ===== verification/Ingestion.v ===== *)
(** * Ingestion: file selection and validation in UploadForm

    The part of src/DIP/src/components/UploadForm.jsx that turns a
    browse or drop gesture into a selected file: the component's local
    state, [allowed_file], [handleFileChange], [handleDrag],
    [handleDrop], the hover handlers of the filter buttons and the
    [useEffect] that creates and revokes the preview object URL.

    A handler returns the new local state and the App setters it
    called, in order ([app_cmd]); React applies the batched updates
    after the handler, so a handler is a function of the state of the
    last render. *)

From stdpp Require Import base list strings gmap sets.
From Stdlib Require Import NArith Ascii.
From S2P Require Import Prelude JsRuntime Catalog.

Module Ingestion.

Import JsString.

(** A [File] object: its identity (what [Object.is] compares), its
    [name] and its [size] in bytes. *)
Record file := {
  file_id : nat;
  file_name : string;
  file_size : N
}.

#[export] Instance file_eq_dec : EqDecision file.
Proof. solve_decision. Defined.

(** The setters App passes to UploadForm as props: the interface
    between the two components. *)
Inductive app_cmd :=
  | SetFilename (n : string)
  | SetFilter (f : string)
  | SetIsProcessing (b : bool).

(** The local state of UploadForm.  [preview_cleanup] is the URL the
    cleanup of the last run of the preview effect will revoke (React
    keeps that cleanup with the component). *)
Record form_state := {
  selectedFile : option file;
  dragActive : bool;
  hoverFilter : option string;
  preview : option nat;
  error : option string;
  preview_cleanup : option nat
}.

Definition init_form : form_state :=
  {| selectedFile := None; dragActive := false; hoverFilter := None;
     preview := None; error := None; preview_cleanup := None |}.

(** The state setters of UploadForm. *)
Definition setError (e : option string) (st : form_state) : form_state :=
  {| selectedFile := selectedFile st; dragActive := dragActive st;
     hoverFilter := hoverFilter st; preview := preview st; error := e;
     preview_cleanup := preview_cleanup st |}.

Definition setSelectedFile (f : file) (st : form_state) : form_state :=
  {| selectedFile := Some f; dragActive := dragActive st;
     hoverFilter := hoverFilter st; preview := preview st; error := error st;
     preview_cleanup := preview_cleanup st |}.

Definition setDragActive (b : bool) (st : form_state) : form_state :=
  {| selectedFile := selectedFile st; dragActive := b;
     hoverFilter := hoverFilter st; preview := preview st; error := error st;
     preview_cleanup := preview_cleanup st |}.

Definition setHoverFilter (h : option string) (st : form_state) : form_state :=
  {| selectedFile := selectedFile st; dragActive := dragActive st;
     hoverFilter := h; preview := preview st; error := error st;
     preview_cleanup := preview_cleanup st |}.

(** The size limit, [15 * 1024 * 1024] bytes, and the messages. *)
Definition MAX_SIZE : N := 15 * 1024 * 1024.

Definition too_large_msg : string :=
  "File is too large. Please select an image under 15MB.".

Definition unsupported_msg : string :=
  "Unsupported file type. Please use PNG, JPG, JPEG, or BMP.".

(** [allowed_file(filename)]: the text after the last dot, lower-cased,
    is one of the four extensions.  [pop] never sees an empty array
    ([split_nonempty]); in JavaScript its [undefined] would make
    [toLowerCase] throw. *)
Definition allowed_file (filename : string) : bool :=
  match pop (split "."%char filename) with
  | Some extension => includes ["png"; "jpg"; "jpeg"; "bmp"] (to_lower extension)
  | None => false
  end.

(** [handleFileChange]: the browse path; [files] is
    [event.target.files]. *)
Definition handleFileChange (files : list file) (st : form_state)
    : form_state * list app_cmd :=
  let st := setError None st in
  match head files with
  | Some file =>
      if (MAX_SIZE <? file_size file)%N then (setError (Some too_large_msg) st, [])
      else (setSelectedFile file st, [SetFilename (file_name file)])
  | None => (st, [])
  end.

(** The drag events the drop area listens to. *)
Inductive drag_type := DragEnter | DragOver | DragLeave.

(** [handleDrag]. *)
Definition handleDrag (t : drag_type) (st : form_state) : form_state :=
  match t with
  | DragEnter | DragOver => setDragActive true st
  | DragLeave => setDragActive false st
  end.

(** [handleDrop]: the drop path; [files] is [e.dataTransfer.files]. *)
Definition handleDrop (files : list file) (st : form_state)
    : form_state * list app_cmd :=
  let st := setError None (setDragActive false st) in
  match head files with
  | Some file =>
      if (MAX_SIZE <? file_size file)%N then (setError (Some too_large_msg) st, [])
      else if negb (allowed_file (file_name file)) then
        (setError (Some unsupported_msg) st, [])
      else (setSelectedFile file st, [SetFilename (file_name file)])
  | None => (st, [])
  end.

(** The [onMouseEnter] / [onMouseLeave] handlers of a filter button. *)
Definition handleHoverEnter (k : Catalog.filter_kind) (st : form_state) : form_state :=
  setHoverFilter (Some (Catalog.filter_key k)) st.

Definition handleHoverLeave (st : form_state) : form_state :=
  setHoverFilter None st.

(** The preview effect, run after a render in which [selectedFile]
    changed: first the cleanup of the previous run revokes its URL,
    then a null selection clears the preview and a file gets a fresh
    object URL. *)
Definition run_preview_effect (st : form_state) (bs : ObjectURL.store)
    : form_state * ObjectURL.store :=
  let bs := match preview_cleanup st with
            | Some u => ObjectURL.revoke u bs
            | None => bs
            end in
  let mk p c := {| selectedFile := selectedFile st; dragActive := dragActive st;
                   hoverFilter := hoverFilter st; preview := p; error := error st;
                   preview_cleanup := c |} in
  match selectedFile st with
  | None => (mk None None, bs)
  | Some _ => let '(u, bs) := ObjectURL.create bs in (mk (Some u) (Some u), bs)
  end.

(** React runs the effect only when [selectedFile] changed
    ([Object.is] on the old and new value). *)
Definition commit_form (old st : form_state) (bs : ObjectURL.store)
    : form_state * ObjectURL.store :=
  if decide (selectedFile old = selectedFile st) then (st, bs)
  else run_preview_effect st bs.

(** Unmounting runs the pending cleanup. *)
Definition unmount_form (st : form_state) (bs : ObjectURL.store) : ObjectURL.store :=
  match preview_cleanup st with
  | Some u => ObjectURL.revoke u bs
  | None => bs
  end.

(** ** Properties of the ingestion handlers *)

(** [N.ltb] as the order it decides. *)
Lemma size_check_false (n : N) : (MAX_SIZE <? n)%N = false <-> (n <= MAX_SIZE)%N.
Proof. rewrite N.ltb_ge. done. Qed.

Lemma size_check_true (n : N) : (MAX_SIZE <? n)%N = true <-> (MAX_SIZE < n)%N.
Proof. apply N.ltb_lt. Qed.

#[export] Hint Resolve -> size_check_false size_check_true : dip.
#[export] Hint Resolve <- size_check_false size_check_true : dip.

Section Handlers.

Context (st : form_state) (f : file) (rest : list file).

(** C8: on both ingestion paths a file over 15 MiB is rejected with
    the size message, leaves the selection and its preview unchanged
    and calls no App setter. *)
Theorem ingest_too_large :
  (MAX_SIZE < file_size f)%N ->
  (let '(st', cmds) := handleDrop (f :: rest) st in
   selectedFile st' = selectedFile st /\ preview st' = preview st /\
   error st' = Some too_large_msg /\ cmds = []) /\
  (let '(st', cmds) := handleFileChange (f :: rest) st in
   selectedFile st' = selectedFile st /\ preview st' = preview st /\
   error st' = Some too_large_msg /\ cmds = []).
Proof.
  intros Hbig. apply size_check_true in Hbig.
  unfold handleDrop, handleFileChange; simpl. rewrite Hbig. done.
Qed.

(** C1: on the drop path a file within the limit whose name fails
    [allowed_file] is rejected with the type message, leaves the
    selection unchanged and calls no App setter. *)
Theorem handleDrop_unsupported :
  (file_size f <= MAX_SIZE)%N -> allowed_file (file_name f) = false ->
  let '(st', cmds) := handleDrop (f :: rest) st in
  selectedFile st' = selectedFile st /\ preview st' = preview st /\
  error st' = Some unsupported_msg /\ cmds = [].
Proof.
  intros Hsz Hext. apply size_check_false in Hsz.
  unfold handleDrop; simpl. rewrite Hsz, Hext. done.
Qed.

(** C23: on the drop path a file within the limit with an allowed
    extension becomes the selection, clears the error, and App's
    [filename] is set to its name. *)
Theorem handleDrop_accepts :
  (file_size f <= MAX_SIZE)%N -> allowed_file (file_name f) = true ->
  let '(st', cmds) := handleDrop (f :: rest) st in
  selectedFile st' = Some f /\ error st' = None /\ dragActive st' = false /\
  cmds = [SetFilename (file_name f)].
Proof.
  intros Hsz Hext. apply size_check_false in Hsz.
  unfold handleDrop; simpl. rewrite Hsz, Hext. done.
Qed.

(** C24: the browse path never checks the extension: every file within
    the limit becomes the selection and its name is published to App,
    whatever [allowed_file] says of it. *)
Theorem handleFileChange_skips_extension :
  (file_size f <= MAX_SIZE)%N ->
  let '(st', cmds) := handleFileChange (f :: rest) st in
  selectedFile st' = Some f /\ error st' = None /\
  cmds = [SetFilename (file_name f)].
Proof.
  intros Hsz. apply size_check_false in Hsz.
  unfold handleFileChange; simpl. rewrite Hsz. done.
Qed.

(** C2: the size limit is inclusive: a file of a new identity becomes
    the selection on the browse path exactly when its size is at most
    15728640 bytes. *)
Theorem handleFileChange_size_bound :
  selectedFile st ≠ Some f ->
  selectedFile (handleFileChange (f :: rest) st).1 = Some f <->
  (file_size f <= 15728640)%N.
Proof.
  intros Hnew. change 15728640%N with MAX_SIZE.
  unfold handleFileChange; simpl.
  destruct (MAX_SIZE <? file_size f)%N eqn:Hc; simpl.
  - apply size_check_true in Hc. split; [done | lia].
  - apply size_check_false in Hc. done.
Qed.

End Handlers.

(** C7: [allowed_file] looks only at the text after the last dot: for
    a name [base.ext] whose [ext] has no dot, the verdict is whether
    [ext], lower-cased, is one of png, jpg, jpeg, bmp. *)
Theorem allowed_file_extension (base ext : string) :
  has_char "."%char ext = false ->
  allowed_file (base +:+ String "."%char ext) =
  includes ["png"; "jpg"; "jpeg"; "bmp"] (to_lower ext).
Proof. intros H. unfold allowed_file. by rewrite pop_split_app_sep. Qed.

(** C25: a name without any dot is judged as if it were all extension:
    a file named [png] or [JPEG] passes [allowed_file]. *)
Theorem allowed_file_no_dot (name : string) :
  has_char "."%char name = false ->
  allowed_file name = includes ["png"; "jpg"; "jpeg"; "bmp"] (to_lower name).
Proof. intros H. unfold allowed_file. by rewrite pop_split_no_sep. Qed.

(** ** Witnesses at concrete files *)

Lemma ingest_too_large_witness :
  (MAX_SIZE < file_size {| file_id := 2; file_name := "huge.png"; file_size := 20000000 |})%N /\
  error (handleDrop [{| file_id := 2; file_name := "huge.png"; file_size := 20000000 |}]
           init_form).1 = Some too_large_msg.
Proof.
  split; [vm_compute; reflexivity|].
  pose proof (ingest_too_large init_form
    {| file_id := 2; file_name := "huge.png"; file_size := 20000000 |} []
    ltac:(vm_compute; reflexivity)) as [H _].
  revert H. destruct (handleDrop _ _) as [st' cmds]. simpl. tauto.
Defined.

Lemma handleDrop_unsupported_witness :
  allowed_file "anim.gif" = false /\
  error (handleDrop [{| file_id := 3; file_name := "anim.gif"; file_size := 2048 |}]
           init_form).1 = Some unsupported_msg.
Proof.
  split; [vm_compute; reflexivity|].
  pose proof (handleDrop_unsupported init_form
    {| file_id := 3; file_name := "anim.gif"; file_size := 2048 |} []
    ltac:(vm_compute; discriminate) ltac:(vm_compute; reflexivity)) as H.
  revert H. destruct (handleDrop _ _) as [st' cmds]. simpl. tauto.
Defined.

Lemma handleDrop_accepts_witness :
  allowed_file "cat.PNG" = true /\
  (handleDrop [{| file_id := 1; file_name := "cat.PNG"; file_size := MAX_SIZE |}]
     init_form).2 = [SetFilename "cat.PNG"].
Proof.
  split; [vm_compute; reflexivity|].
  pose proof (handleDrop_accepts init_form
    {| file_id := 1; file_name := "cat.PNG"; file_size := MAX_SIZE |} []
    ltac:(simpl; lia) ltac:(vm_compute; reflexivity)) as H.
  revert H. destruct (handleDrop _ _) as [st' cmds]. simpl. tauto.
Defined.

Lemma handleFileChange_skips_extension_witness :
  allowed_file "anim.gif" = false /\
  selectedFile (handleFileChange [{| file_id := 3; file_name := "anim.gif"; file_size := 2048 |}]
                  init_form).1 =
  Some {| file_id := 3; file_name := "anim.gif"; file_size := 2048 |}.
Proof.
  split; [vm_compute; reflexivity|].
  pose proof (handleFileChange_skips_extension init_form
    {| file_id := 3; file_name := "anim.gif"; file_size := 2048 |} []
    ltac:(vm_compute; discriminate)) as H.
  revert H. destruct (handleFileChange _ _) as [st' cmds]. simpl. tauto.
Defined.

Lemma handleFileChange_size_bound_witness :
  selectedFile (handleFileChange [{| file_id := 4; file_name := "edge.bmp"; file_size := 15728641 |}]
                  init_form).1 = None.
Proof.
  destruct (selectedFile _) as [g|] eqn:E; [|reflexivity].
  assert (Hg : g = {| file_id := 4; file_name := "edge.bmp"; file_size := 15728641 |})
    by (vm_compute in E; congruence).
  subst g. apply (handleFileChange_size_bound init_form _ [] ltac:(discriminate)) in E.
  simpl in E. lia.
Defined.

Lemma allowed_file_extension_witness :
  allowed_file ("holiday.photo" +:+ String "."%char "JpG") = true.
Proof.
  rewrite (allowed_file_extension "holiday.photo" "JpG" ltac:(reflexivity)).
  vm_compute. reflexivity.
Defined.

Lemma allowed_file_no_dot_witness : allowed_file "png" = true.
Proof.
  rewrite (allowed_file_no_dot "png" ltac:(reflexivity)). vm_compute. reflexivity.
Defined.

End Ingestion.
