(* ===== verification/Submission.v ===== *)
(** * Submission: [handleUpload] of UploadForm

    [handleUpload(filterType)] in src/DIP/src/components/UploadForm.jsx
    is an [async] function with one [await] (the [axios.post] to
    [/upload]).  It is modelled as two functions:
    [handleUpload_start], everything before the await (the guard on the
    selected file, [setIsProcessing(true)], [setError(null)] and the
    request that is sent), and [handleUpload_finish], the continuation
    run when the request settles (the [if (data.success)] branches, the
    [catch] and the [finally]).  The continuation closes over the
    [selectedFile] of the render in which the button was clicked, so
    the request carries that file. *)

From stdpp Require Import base list strings sets.
From S2P Require Import Prelude JsRuntime Catalog Ingestion.

Module Submission.

Import JsString Ingestion.

(** How the [axios.post] settles.  A 2xx response carries
    [response.data] with its [success] flag and its [error] field
    (absent is [undefined]); axios rejects a non-2xx response with
    [error.response.data.error] available; a transport failure rejects
    with no [error.response]. *)
Inductive outcome :=
  | Response (success : bool) (data_error : option string)
  | HttpError (data_error : option string)
  | NetworkError.

Definition select_first_msg : string := "Please select an image first!".

Definition offline_msg : string :=
  "Failed to process the image. Server might be offline.".

(** The request [handleUpload] sends: the form's [file] and [filter]
    fields. *)
Record post := {
  post_file : file;
  post_filter : string
}.

(** The synchronous part of [handleUpload], up to the [await]: the new
    local state, the App setters called, and the request sent, if
    any. *)
Definition handleUpload_start (filterType : string) (st : form_state)
    : form_state * list app_cmd * option post :=
  match selectedFile st with
  | None => (setError (Some select_first_msg) st, [], None)
  | Some f =>
      (setError None st, [SetIsProcessing true],
       Some {| post_file := f; post_filter := filterType |})
  end.

(** The continuation after the [await]: the App setters called, in
    order (the [finally] last), and the argument of the [setError]
    call on the form, if one is made. *)
Definition handleUpload_finish (p : post) (o : outcome)
    : list app_cmd * option string :=
  match o with
  | Response true _ =>
      ([SetFilter (post_filter p); SetFilename (file_name (post_file p));
        SetIsProcessing false], None)
  | Response false e =>
      ([SetIsProcessing false], Some ("Error: " +:+ to_str e))
  | HttpError e =>
      ([SetIsProcessing false], Some (or_else e offline_msg))
  | NetworkError =>
      ([SetIsProcessing false], Some offline_msg)
  end.

(** ** Properties of [handleUpload] *)

(** The [finally] runs last on every path. *)
Lemma handleUpload_finish_last (p : post) (o : outcome) :
  exists cmds0, (handleUpload_finish p o).1 = cmds0 ++ [SetIsProcessing false].
Proof.
  exists (removelast (handleUpload_finish p o).1).
  destruct o as [[|] e|e|]; reflexivity.
Qed.

(** C3: without a selected file [handleUpload] sets the "select an
    image" error, calls no App setter and sends no request. *)
Theorem handleUpload_no_file (filterType : string) (st : form_state) :
  selectedFile st = None ->
  handleUpload_start filterType st =
  (setError (Some select_first_msg) st, [], None).
Proof. intros H. unfold handleUpload_start. by rewrite H. Qed.

(** C26: with a selected file, [isProcessing] is raised before the
    await, the error is cleared, and exactly one request is sent,
    carrying the file selected at click time and the filter. *)
Theorem handleUpload_sends (filterType : string) (st : form_state) (f : file) :
  selectedFile st = Some f ->
  let '(st', cmds, req) := handleUpload_start filterType st in
  error st' = None /\ selectedFile st' = Some f /\
  cmds = [SetIsProcessing true] /\
  req = Some {| post_file := f; post_filter := filterType |}.
Proof. intros H. unfold handleUpload_start. by rewrite H. Qed.

Section Continuation.

Context (p : post).

(** C4: whatever the outcome, the continuation ends with
    [setIsProcessing(false)] (the [finally]), and it publishes a filter
    to App exactly when the server answered 2xx with [success] true. *)
Theorem handleUpload_finish_settles (o : outcome) :
  (exists cmds0, (handleUpload_finish p o).1 = cmds0 ++ [SetIsProcessing false]) /\
  ((exists fl, SetFilter fl ∈ (handleUpload_finish p o).1) <->
   exists e, o = Response true e).
Proof.
  split; [apply handleUpload_finish_last|].
  destruct o as [[|] e|e|]; simpl.
  - split; [eauto|]. intros _. exists (post_filter p). set_solver.
  - split; [intros [x Hx]; set_solver | intros [? ?]; discriminate].
  - split; [intros [x Hx]; set_solver | intros [? ?]; discriminate].
  - split; [intros [x Hx]; set_solver | intros [? ?]; discriminate].
Qed.

(** C27: the three failure paths report distinct messages: a handled
    server failure as ["Error: " + data.error], an HTTP error with a
    non-empty body message as that message verbatim, and a failure
    without a response as the "server might be offline" message; none
    of them publishes a result. *)
Theorem handleUpload_finish_errors (e : option string) (m : string) :
  handleUpload_finish p (Response false e) =
    ([SetIsProcessing false], Some ("Error: " +:+ to_str e)) /\
  (m ≠ "" -> handleUpload_finish p (HttpError (Some m)) = ([SetIsProcessing false], Some m)) /\
  handleUpload_finish p (HttpError None) = ([SetIsProcessing false], Some offline_msg) /\
  handleUpload_finish p NetworkError = ([SetIsProcessing false], Some offline_msg).
Proof.
  split; [done|]. split; [|done].
  intros Hm. unfold handleUpload_finish, or_else, truthy. simpl.
  by rewrite string_eqb_false_ne.
Qed.

End Continuation.

(** ** Witnesses *)

Lemma handleUpload_no_file_witness :
  handleUpload_start "blur" init_form = (setError (Some select_first_msg) init_form, [], None).
Proof. apply (handleUpload_no_file "blur" init_form). reflexivity. Defined.

Lemma handleUpload_sends_witness :
  (handleUpload_start "blur"
     (setSelectedFile {| file_id := 1; file_name := "cat.png"; file_size := 1024 |} init_form)).1.2
  = [SetIsProcessing true].
Proof.
  pose proof (handleUpload_sends "blur"
    (setSelectedFile {| file_id := 1; file_name := "cat.png"; file_size := 1024 |} init_form)
    {| file_id := 1; file_name := "cat.png"; file_size := 1024 |} eq_refl) as H.
  revert H. destruct (handleUpload_start _ _) as [[st' cmds] req]. simpl. tauto.
Defined.

Lemma handleUpload_finish_errors_witness :
  handleUpload_finish {| post_file := {| file_id := 1; file_name := "cat.png"; file_size := 1024 |};
                         post_filter := "blur" |} (HttpError (Some "Invalid filter"))
  = ([SetIsProcessing false], Some "Invalid filter").
Proof.
  destruct (handleUpload_finish_errors
    {| post_file := {| file_id := 1; file_name := "cat.png"; file_size := 1024 |};
       post_filter := "blur" |} None "Invalid filter") as (_ & H & _).
  apply H. discriminate.
Defined.

End Submission.
