(* ===== verification/Renderer.v ===== *)
(** * Renderer: the ProcessedImage component

    src/DIP/src/components/ProcessedImage.jsx: the local state
    ([viewMode], [isComparing], [comparePosition], [imageLoaded]), the
    [filter] effect, the handlers of the view-mode buttons, of the
    comparison container (mouse and touch) and of the original image,
    [formatFilterName], and the render function as a description of
    what is on screen: which images with which URLs, the spinner, the
    captions, the slider position and the download link. *)

From stdpp Require Import base list strings sets.
From Stdlib Require Import QArith Lqa Ascii.
From S2P Require Import Prelude JsRuntime Catalog.

Module Renderer.

Import JsString JsNumber.

(** The two values of [viewMode]: ["side-by-side"] and
    ["comparison"]. *)
Inductive view_mode := SideBySide | Comparison.

#[export] Instance view_mode_eq_dec : EqDecision view_mode.
Proof. solve_decision. Defined.

Record pimg_state := {
  viewMode : view_mode;
  isComparing : bool;
  comparePosition : num;
  imageLoaded : bool
}.

Definition init_view : pimg_state :=
  {| viewMode := SideBySide; isComparing := false; comparePosition := Fin 50;
     imageLoaded := false |}.

(** The props App passes: [{ filename, filter, isProcessing }]. *)
Record props := {
  filename : option string;
  filter : option string;
  isProcessing : bool
}.

Definition setViewMode (m : view_mode) (st : pimg_state) : pimg_state :=
  {| viewMode := m; isComparing := isComparing st;
     comparePosition := comparePosition st; imageLoaded := imageLoaded st |}.

Definition setIsComparing (b : bool) (st : pimg_state) : pimg_state :=
  {| viewMode := viewMode st; isComparing := b;
     comparePosition := comparePosition st; imageLoaded := imageLoaded st |}.

Definition setComparePosition (n : num) (st : pimg_state) : pimg_state :=
  {| viewMode := viewMode st; isComparing := isComparing st;
     comparePosition := n; imageLoaded := imageLoaded st |}.

Definition setImageLoaded (b : bool) (st : pimg_state) : pimg_state :=
  {| viewMode := viewMode st; isComparing := isComparing st;
     comparePosition := comparePosition st; imageLoaded := b |}.

(** The effect keyed on [filter]: [setImageLoaded(false)] when the
    prop changed. *)
Definition filter_effect (old new : option string) (st : pimg_state) : pimg_state :=
  if decide (old = new) then st else setImageLoaded false st.

(** The slider position computed from a pointer event:
    [x = clientX - rect.left],
    [Math.max(0, Math.min(100, (x / rect.width) * 100))]. *)
Definition compare_position_of (clientX left width : Q) : num :=
  let x := (clientX - left)%Q in
  let percent := mul (div x width) 100 in
  max (Fin 0) (min (Fin 100) percent).

(** [handleCompareMove], the [onMouseMove] handler. *)
Definition handleCompareMove (clientX left width : Q) (st : pimg_state) : pimg_state :=
  if isComparing st then setComparePosition (compare_position_of clientX left width) st
  else st.

(** The [onTouchMove] handler: the same computation on
    [e.touches[0].clientX]. *)
Definition handleTouchMove (touchX left width : Q) (st : pimg_state) : pimg_state :=
  if isComparing st then setComparePosition (compare_position_of touchX left width) st
  else st.

(** The container's press and release events. *)
Inductive pointer_event := MouseDown | MouseUp | MouseLeave | TouchStart | TouchEnd.

Definition handlePointer (e : pointer_event) (st : pimg_state) : pimg_state :=
  match e with
  | MouseDown | TouchStart => setIsComparing true st
  | MouseUp | MouseLeave | TouchEnd => setIsComparing false st
  end.

(** The [onLoad] handler of the original image (side-by-side view). *)
Definition handleOriginalLoad (st : pimg_state) : pimg_state := setImageLoaded true st.

(** One word of [formatFilterName]. *)
Definition capitalize (word : string) : string := to_upper (char_at0 word) +:+ slice1 word.

(** [formatFilterName]: each [_]-separated word capitalised, joined by
    spaces; [""] for a falsy name. *)
Definition formatFilterName (name : option string) : string :=
  if negb (truthy name) then ""
  else join " " (map capitalize (split "_"%char (default "" name))).

Definition originalImage (fn : string) : string :=
  "http://127.0.0.1:5000/uploads/" +:+ fn.

Definition processedImage (fl : option string) (fn : string) : string :=
  "http://127.0.0.1:5000/processed/" +:+ null_to_str fl +:+ "_" +:+ fn.

(** ** The render function as a view description *)

Inductive caption := CaptionProcessing | CaptionFilter (label : string) | CaptionAwaiting.

(** The processed pane of the side-by-side view. *)
Inductive pane := PaneSpinner | PaneProcessed (src label : string) | PaneEmpty.

Inductive display :=
  | DisplaySideBySide (original : string) (dimmed : bool) (cap : caption) (p : pane)
  | DisplaySlider (original processed : string) (position : num) (label : string)
  | DisplayNone.

(** The placeholder, or the panel: the view-mode toggle (with its
    active mode) when shown, the image display, and the download
    button's [href] and [download] name when shown. *)
Inductive pimg_view :=
  | Placeholder
  | Panel (toggle : option view_mode) (d : display) (download : option (string * string)).

Definition render (p : props) (st : pimg_state) : pimg_view :=
  if negb (truthy (filename p)) then Placeholder
  else
    let fn := default "" (filename p) in
    let orig := originalImage fn in
    let proc := processedImage (filter p) fn in
    let ready := truthy (filter p) && negb (isProcessing p) in
    let d :=
      match viewMode st with
      | SideBySide =>
          DisplaySideBySide orig (isProcessing p)
            (if isProcessing p then CaptionProcessing
             else if truthy (filter p) then CaptionFilter (formatFilterName (filter p) +:+ " Filter")
             else CaptionAwaiting)
            (if isProcessing p then PaneSpinner
             else if truthy (filter p) then PaneProcessed proc (formatFilterName (filter p))
             else PaneEmpty)
      | Comparison =>
          if ready then DisplaySlider orig proc (comparePosition st) (formatFilterName (filter p))
          else DisplayNone
      end in
    Panel (if ready then Some (viewMode st) else None) d
      (if ready then Some (proc, null_to_str (filter p) +:+ "_processed_" +:+ fn) else None).

(** Which handlers exist in the rendered tree. *)
Definition toggle_shown (v : pimg_view) : bool :=
  match v with Panel (Some _) _ _ => true | _ => false end.

Definition slider_shown (v : pimg_view) : bool :=
  match v with Panel _ (DisplaySlider _ _ _ _) _ => true | _ => false end.

Definition original_onload_shown (v : pimg_view) : bool :=
  match v with Panel _ (DisplaySideBySide _ _ _ _) _ => true | _ => false end.

(** The URLs of processed images the view shows. *)
Definition shown_processed (v : pimg_view) : list string :=
  match v with
  | Panel _ (DisplaySideBySide _ _ _ (PaneProcessed src _)) _ => [src]
  | Panel _ (DisplaySlider _ src _ _) _ => [src]
  | _ => []
  end.

(** A one-pass reference for [formatFilterName]: every ['_'] becomes a
    space and the first character of every word is upper-cased. *)
Fixpoint title_from (start : bool) (s : string) : string :=
  match s with
  | EmptyString => EmptyString
  | String c s' =>
      if decide (c = "_"%char) then String " "%char (title_from true s')
      else String (if start then ascii_upper c else c) (title_from false s')
  end.

(** ** Properties of the slider *)

(** The ratio [x / width] against 0 and 1, for a positive width. *)
Lemma ratio_le_0 (x w : Q) : (0 < w)%Q -> (x <= 0)%Q -> (x / w <= 0)%Q.
Proof. intros Hw Hx. apply Qle_shift_div_r; [done | lra]. Qed.

Lemma ratio_ge_0 (x w : Q) : (0 < w)%Q -> (0 <= x)%Q -> (0 <= x / w)%Q.
Proof. intros Hw Hx. apply Qle_shift_div_l; [done | lra]. Qed.

Lemma ratio_le_1 (x w : Q) : (0 < w)%Q -> (x <= w)%Q -> (x / w <= 1)%Q.
Proof. intros Hw Hx. apply Qle_shift_div_r; [done | lra]. Qed.

Lemma ratio_ge_1 (x w : Q) : (0 < w)%Q -> (w <= x)%Q -> (1 <= x / w)%Q.
Proof. intros Hw Hx. apply Qle_shift_div_l; [done | lra]. Qed.

(** Over a container of positive width the slider position computed
    from any pointer position is a finite number in [[0, 100]]. *)
Lemma compare_position_bounded (clientX left width : Q) :
  (0 < width)%Q -> in_range 0 100 (compare_position_of clientX left width).
Proof.
  intros Hw. unfold compare_position_of. rewrite mul_div_pos by done.
  apply clamp_in_range; [lra | discriminate].
Qed.

(** C5: over a container of positive width, a pointer left of the
    container gives 0, one right of it gives 100, and one inside it at
    offset [x] gives exactly [x / width * 100]. *)
Theorem compare_position_spec (clientX left width : Q) :
  (0 < width)%Q ->
  ((clientX - left <= 0)%Q -> compare_position_of clientX left width = Fin 0) /\
  ((width <= clientX - left)%Q -> compare_position_of clientX left width = Fin 100) /\
  ((0 <= clientX - left <= width)%Q ->
   compare_position_of clientX left width = Fin (Qred ((clientX - left) / width * 100))).
Proof.
  intros Hw. unfold compare_position_of. rewrite mul_div_pos by done.
  split; [|split].
  - intros Hx. apply clamp_lo; try reflexivity; [apply Qred_idem | lra |].
    rewrite Qred_correct. pose proof (ratio_le_0 _ _ Hw Hx). lra.
  - intros Hx. apply clamp_hi; [lra|].
    rewrite Qred_correct. pose proof (ratio_ge_1 _ _ Hw Hx). lra.
  - intros [Hx1 Hx2]. apply clamp_id; try reflexivity; [apply Qred_idem|].
    rewrite Qred_correct.
    pose proof (ratio_ge_0 _ _ Hw Hx1). pose proof (ratio_le_1 _ _ Hw Hx2). lra.
Qed.

(** C28: over a container of width 0 the computation divides by zero:
    a pointer exactly at the left edge makes the position NaN (which
    [Math.min] and [Math.max] propagate), while a pointer on either
    side saturates at 100 or 0. *)
Theorem compare_position_zero_width (clientX left width : Q) :
  (width == 0)%Q ->
  ((clientX == left)%Q -> compare_position_of clientX left width = NaN) /\
  ((left < clientX)%Q -> compare_position_of clientX left width = Fin 100) /\
  ((clientX < left)%Q -> compare_position_of clientX left width = Fin 0).
Proof.
  intros Hw. unfold compare_position_of. rewrite div_zero by done.
  split; [|split]; intros Hx.
  - case_Qeq (clientX - left) 0; [done | lra].
  - case_Qeq (clientX - left) 0; [lra|]. case_Qle 0 (clientX - left); [done | lra].
  - case_Qeq (clientX - left) 0; [lra|]. case_Qle 0 (clientX - left); [lra | done].
Qed.

(** ** Properties of the render function *)

(** C6: the view shows a processed image only when the [filter] prop
    is set and [isProcessing] is false, and the image is the processed
    artifact of that filter and file name. *)
Theorem render_processed_only_when_ready (p : props) (st : pimg_state) (src : string) :
  src ∈ shown_processed (render p st) ->
  truthy (filter p) = true /\ isProcessing p = false /\
  src = processedImage (filter p) (default "" (filename p)).
Proof.
  unfold render. destruct (truthy (filename p)); simpl; [|set_solver].
  destruct (isProcessing p), (truthy (filter p)), (viewMode st); simpl;
    set_unfold; naive_solver.
Qed.

(** C29: while a request is in flight the side-by-side view dims the
    original and shows the spinner with the "Processing" caption, but
    the slider view shows neither image nor spinner; the toggle and the
    download button are hidden in both. *)
Theorem render_while_processing (p : props) (st : pimg_state) :
  truthy (filename p) = true -> isProcessing p = true ->
  render p st =
  Panel None
    (match viewMode st with
     | SideBySide =>
         DisplaySideBySide (originalImage (default "" (filename p))) true
           CaptionProcessing PaneSpinner
     | Comparison => DisplayNone
     end) None.
Proof.
  intros Hf Hp. unfold render. rewrite Hf, Hp. simpl.
  rewrite andb_false_r. by destruct (viewMode st).
Qed.

(** With a result available, the processed image on screen. *)
Lemma shown_processed_ready (p : props) (st : pimg_state) (fn fl : string) :
  filename p = Some fn -> filter p = Some fl -> fn ≠ "" -> fl ≠ "" ->
  isProcessing p = false ->
  shown_processed (render p st) =
    ["http://127.0.0.1:5000/processed/" +:+ fl +:+ "_" +:+ fn].
Proof.
  intros Hfn Hfl Hne1 Hne2 Hp. unfold render, truthy.
  rewrite Hfn, Hfl, Hp, !string_eqb_false_ne by done. simpl.
  by destruct (viewMode st).
Qed.

(** C30: once a result is available (a file name, a filter, no request
    in flight) the toggle shows the current mode, the download link
    points at [processed/<filter>_<name>] under the name
    [<filter>_processed_<name>], and the processed image is on
    screen. *)
Theorem render_ready (p : props) (st : pimg_state) (fn fl : string) :
  filename p = Some fn -> filter p = Some fl -> fn ≠ "" -> fl ≠ "" ->
  isProcessing p = false ->
  exists d,
    render p st =
      Panel (Some (viewMode st)) d
        (Some ("http://127.0.0.1:5000/processed/" +:+ fl +:+ "_" +:+ fn,
               fl +:+ "_processed_" +:+ fn)) /\
    shown_processed (render p st) =
      ["http://127.0.0.1:5000/processed/" +:+ fl +:+ "_" +:+ fn].
Proof.
  intros Hfn Hfl Hne1 Hne2 Hp. rewrite (shown_processed_ready p st fn fl) by done.
  unfold render, truthy. rewrite Hfn, Hfl, Hp, !string_eqb_false_ne by done. simpl.
  by eexists.
Qed.

(** ** [formatFilterName] against its one-pass reference *)

Lemma join_cons_char (sep : string) (c : Ascii.ascii) (r : string) (l : list string) :
  join sep (String c r :: l) = String c (join sep (r :: l)).
Proof. by destruct l. Qed.

Lemma capitalize_cons (c : Ascii.ascii) (r : string) :
  capitalize (String c r) = String (ascii_upper c) r.
Proof. reflexivity. Qed.

Lemma title_from_split (s : string) :
  match split "_"%char s with
  | r :: rs => title_from false s = join " " (r :: map capitalize rs) /\
               title_from true s = join " " (capitalize r :: map capitalize rs)
  | [] => False
  end.
Proof.
  induction s as [|c s IH]; [done|]. cbn [split title_from].
  destruct (split "_"%char s) as [|r rs]; [done|]. destruct IH as [IHf IHt].
  case_decide.
  - rewrite IHt. done.
  - rewrite IHf, capitalize_cons, !join_cons_char. done.
Qed.

(** C35: [formatFilterName] equals the one-pass reference: it replaces
    every underscore by a space and upper-cases the first character of
    every word, and it maps a missing or empty name to [""]. *)
Theorem formatFilterName_equiv (name : option string) :
  formatFilterName name = title_from true (default "" name).
Proof.
  unfold formatFilterName, truthy.
  destruct name as [n|]; simpl; [|done].
  destruct (String.eqb_spec n ""); simpl; [by subst|].
  pose proof (title_from_split n) as H.
  destruct (split "_"%char n) as [|r rs]; [done|]. by destruct H as [_ ->].
Qed.

(** ** Witnesses *)

(** The specification's examples: a 200-wide container and pointers at
    50, 260 and -20 from its left edge. *)
Lemma compare_position_spec_witness :
  compare_position_of 50 0 200 = Fin 25 /\
  compare_position_of 260 0 200 = Fin 100 /\
  compare_position_of (-20) 0 200 = Fin 0.
Proof.
  split; [|split].
  - destruct (compare_position_spec 50 0 200 ltac:(lra)) as (_ & _ & H).
    rewrite H by lra. reflexivity.
  - destruct (compare_position_spec 260 0 200 ltac:(lra)) as (_ & H & _).
    apply H. lra.
  - destruct (compare_position_spec (-20) 0 200 ltac:(lra)) as (H & _ & _).
    apply H. lra.
Defined.

Lemma compare_position_zero_width_witness : compare_position_of 10 10 0 = NaN.
Proof.
  destruct (compare_position_zero_width 10 10 0 ltac:(reflexivity)) as (H & _ & _).
  apply H. reflexivity.
Defined.

Lemma render_processed_only_when_ready_witness :
  isProcessing {| filename := Some "cat.png"; filter := Some "blur"; isProcessing := false |}
  = false.
Proof.
  destruct (render_processed_only_when_ready
    {| filename := Some "cat.png"; filter := Some "blur"; isProcessing := false |} init_view
    "http://127.0.0.1:5000/processed/blur_cat.png" ltac:(vm_compute; left))
    as (_ & H & _).
  exact H.
Defined.

Lemma render_while_processing_witness :
  render {| filename := Some "cat.png"; filter := Some "blur"; isProcessing := true |}
    (setViewMode Comparison init_view) = Panel None DisplayNone None.
Proof.
  apply (render_while_processing
    {| filename := Some "cat.png"; filter := Some "blur"; isProcessing := true |}
    (setViewMode Comparison init_view)); reflexivity.
Defined.

Lemma render_ready_witness :
  shown_processed
    (render {| filename := Some "cat.png"; filter := Some "blur"; isProcessing := false |}
       init_view) = ["http://127.0.0.1:5000/processed/blur_cat.png"].
Proof.
  destruct (render_ready
    {| filename := Some "cat.png"; filter := Some "blur"; isProcessing := false |} init_view
    "cat.png" "blur" eq_refl eq_refl ltac:(discriminate) ltac:(discriminate) eq_refl)
    as (d & _ & H).
  exact H.
Defined.

End Renderer.
