(* ===== verification/System.v ===== *)
(** * System: App and the page as one state machine

    src/DIP/src/App.jsx owns [filename], [filter], [isProcessing],
    [mousePosition] and [activeTab]; on the "upload" tab it mounts
    UploadForm (with the setters) and ProcessedImage (with the state as
    props), on the "about" tab neither.  [sys] is the whole page: App's
    state, the mounted UploadForm instance (its instance number and
    state) and ProcessedImage state, the requests sent and not yet
    settled, every request sent, and the blob-URL store.

    [step] dispatches one event as React does: a handler runs only
    while its element is rendered (the slider handlers only in the
    comparison view with a result, the view-mode buttons only with a
    result, the filter buttons only when not disabled); the state
    updates of a handler are applied together, then the effects whose
    dependencies changed run (the preview effect of UploadForm, the
    [filter] effect of ProcessedImage); switching tabs unmounts or
    mounts both children, running the preview cleanup on unmount.  A
    settled request runs the continuation of [handleUpload]: its App
    setters always apply (App never unmounts), its [setError] applies
    only to the UploadForm instance that sent it. *)

From stdpp Require Import base list strings gmap sets.
From Stdlib Require Import QArith Ascii.
From S2P Require Import Prelude JsRuntime Catalog Ingestion Submission Renderer.

Module System.

Import Ingestion Submission.

#[local] Open Scope nat_scope.

(** The values of [activeTab]: ["upload"] and ["about"]. *)
Inductive tab := TabUpload | TabAbout.

#[export] Instance tab_eq_dec : EqDecision tab.
Proof. solve_decision. Defined.

Record app_state := {
  filename : option string;
  filter : option string;
  isProcessing : bool;
  mousePosition : Q * Q;
  activeTab : tab
}.

Definition init_app : app_state :=
  {| filename := None; filter := None; isProcessing := false;
     mousePosition := (0%Q, 0%Q); activeTab := TabUpload |}.

(** App's setters, as UploadForm calls them through its props. *)
Definition apply_cmd (a : app_state) (c : app_cmd) : app_state :=
  match c with
  | SetFilename n =>
      {| filename := Some n; filter := filter a; isProcessing := isProcessing a;
         mousePosition := mousePosition a; activeTab := activeTab a |}
  | SetFilter f =>
      {| filename := filename a; filter := Some f; isProcessing := isProcessing a;
         mousePosition := mousePosition a; activeTab := activeTab a |}
  | SetIsProcessing b =>
      {| filename := filename a; filter := filter a; isProcessing := b;
         mousePosition := mousePosition a; activeTab := activeTab a |}
  end.

Definition apply_cmds (a : app_state) (cs : list app_cmd) : app_state :=
  fold_left apply_cmd cs a.

Definition setMousePosition (x y : Q) (a : app_state) : app_state :=
  {| filename := filename a; filter := filter a; isProcessing := isProcessing a;
     mousePosition := (x, y); activeTab := activeTab a |}.

Definition setActiveTab (t : tab) (a : app_state) : app_state :=
  {| filename := filename a; filter := filter a; isProcessing := isProcessing a;
     mousePosition := mousePosition a; activeTab := t |}.

(** The props App passes to ProcessedImage. *)
Definition pimg_props (a : app_state) : Renderer.props :=
  {| Renderer.filename := filename a; Renderer.filter := filter a;
     Renderer.isProcessing := isProcessing a |}.

(** A request in flight: its number, the UploadForm instance whose
    continuation it runs, and what was posted. *)
Record request := {
  req_id : nat;
  req_form : nat;
  req_post : post
}.

Record sys := {
  app : app_state;
  form : option (nat * form_state);
  view : option Renderer.pimg_state;
  pending : list request;
  sent : list request;
  blobs : ObjectURL.store;
  next_req : nat;
  next_form : nat
}.

Definition init_sys : sys :=
  {| app := init_app; form := Some (0%nat, init_form); view := Some Renderer.init_view;
     pending := []; sent := []; blobs := ObjectURL.empty; next_req := 0%nat; next_form := 1%nat |}.

(** Field updates of [sys]. *)
Definition with_app (a : app_state) (s : sys) : sys :=
  {| app := a; form := form s; view := view s; pending := pending s; sent := sent s;
     blobs := blobs s; next_req := next_req s; next_form := next_form s |}.

Definition with_form (fo : option (nat * form_state)) (s : sys) : sys :=
  {| app := app s; form := fo; view := view s; pending := pending s; sent := sent s;
     blobs := blobs s; next_req := next_req s; next_form := next_form s |}.

Definition with_view (vo : option Renderer.pimg_state) (s : sys) : sys :=
  {| app := app s; form := form s; view := vo; pending := pending s; sent := sent s;
     blobs := blobs s; next_req := next_req s; next_form := next_form s |}.

Definition with_blobs (bs : ObjectURL.store) (s : sys) : sys :=
  {| app := app s; form := form s; view := view s; pending := pending s; sent := sent s;
     blobs := bs; next_req := next_req s; next_form := next_form s |}.

(** The events of the page: DOM events with their data, and the
    settling of request [id]. *)
Inductive event :=
  | FileChange (files : list file)
  | Drag (t : drag_type)
  | Drop (files : list file)
  | HoverEnter (k : Catalog.filter_kind)
  | HoverLeave
  | ClickFilter (k : Catalog.filter_kind)
  | Settle (id : nat) (o : outcome)
  | ClickViewMode (m : Renderer.view_mode)
  | Pointer (e : Renderer.pointer_event)
  | MouseMove (clientX left width : Q)
  | TouchMove (touchX left width : Q)
  | OriginalLoad
  | ClickTab (t : tab)
  | WindowMouseMove (x y : Q).

(** App's setters applied after a handler, then ProcessedImage's
    [filter] effect. *)
Definition update_app (cs : list app_cmd) (s : sys) : sys :=
  let a' := apply_cmds (app s) cs in
  with_view (option_map (Renderer.filter_effect (filter (app s)) (filter a')) (view s))
    (with_app a' s).

(** A handler of the mounted UploadForm, followed by the preview
    effect and App's setters. *)
Definition form_event (h : form_state -> form_state * list app_cmd) (s : sys) : sys :=
  match form s with
  | Some (i, fs) =>
      let '(fs1, cs) := h fs in
      let '(fs2, bs) := commit_form fs fs1 (blobs s) in
      update_app cs (with_blobs bs (with_form (Some (i, fs2)) s))
  | None => s
  end.

(** A click on a filter button: ignored while the button is disabled
    ([disabled={!selectedFile}]); otherwise [handleUpload_start], and
    the request it sends joins the requests in flight. *)
Definition click_filter (k : Catalog.filter_kind) (s : sys) : sys :=
  match form s with
  | Some (i, fs) =>
      if negb (bool_decide (is_Some (selectedFile fs))) then s
      else
        let '(fs1, cs, req) := handleUpload_start (Catalog.filter_key k) fs in
        let s1 := update_app cs (with_form (Some (i, fs1)) s) in
        match req with
        | Some p =>
            let r := {| req_id := next_req s; req_form := i; req_post := p |} in
            {| app := app s1; form := form s1; view := view s1;
               pending := pending s1 ++ [r]; sent := sent s1 ++ [r];
               blobs := blobs s1; next_req := S (next_req s); next_form := next_form s1 |}
        | None => s1
        end
  | None => s
  end.

Definition find_request (id : nat) (rs : list request) : option request :=
  List.find (fun r => Nat.eqb (req_id r) id) rs.

(** Request [id] settles with [o]: it leaves the requests in flight,
    the continuation's [setError] reaches the form only if the form
    that sent it is still mounted, and its App setters apply. *)
Definition settle (id : nat) (o : outcome) (s : sys) : sys :=
  match find_request id (pending s) with
  | None => s
  | Some r =>
      let '(cs, err) := handleUpload_finish (req_post r) o in
      let s1 := {| app := app s; form := form s; view := view s;
                   pending := List.filter (fun r' => negb (Nat.eqb (req_id r') id)) (pending s);
                   sent := sent s; blobs := blobs s; next_req := next_req s;
                   next_form := next_form s |} in
      let s2 := match err, form s1 with
                | Some m, Some (i, fs) =>
                    if decide (i = req_form r) then with_form (Some (i, setError (Some m) fs)) s1
                    else s1
                | _, _ => s1
                end in
      update_app cs s2
  end.

(** A handler of the mounted ProcessedImage, run only while the element
    carrying it is rendered. *)
Definition view_event (shown : Renderer.pimg_view -> bool)
    (h : Renderer.pimg_state -> Renderer.pimg_state) (s : sys) : sys :=
  match view s with
  | Some v =>
      if shown (Renderer.render (pimg_props (app s)) v) then with_view (Some (h v)) s else s
  | None => s
  end.

(** A click on a tab: nothing if it is the active one; leaving
    "upload" unmounts both children (the preview cleanup runs);
    entering it mounts fresh instances (the preview effect runs with no
    selection, the [filter] effect clears [imageLoaded]). *)
Definition click_tab (t : tab) (s : sys) : sys :=
  if decide (t = activeTab (app s)) then s
  else
    match t with
    | TabAbout =>
        let bs := match form s with
                  | Some (_, fs) => unmount_form fs (blobs s)
                  | None => blobs s
                  end in
        {| app := setActiveTab TabAbout (app s); form := None; view := None;
           pending := pending s; sent := sent s; blobs := bs;
           next_req := next_req s; next_form := next_form s |}
    | TabUpload =>
        let '(fs, bs) := run_preview_effect init_form (blobs s) in
        {| app := setActiveTab TabUpload (app s); form := Some (next_form s, fs);
           view := Some (Renderer.setImageLoaded false Renderer.init_view);
           pending := pending s; sent := sent s; blobs := bs;
           next_req := next_req s; next_form := S (next_form s) |}
    end.

(** A handler of UploadForm that calls no App setter ([handleDrag],
    the hover handlers). *)
Definition local (f : form_state -> form_state) (fs : form_state) : form_state * list app_cmd :=
  (f fs, []).

(** The contract an ingestion handler of UploadForm offers the page:
    it leaves the preview fields to the preview effect, and the only
    App setter it calls is [setFilename].  The page's invariants are
    proved against this interface; each handler discharges it. *)
Class IngestionHandler (h : form_state -> form_state * list app_cmd) : Prop := {
  handler_keeps_preview fs :
    preview (h fs).1 = preview fs /\ preview_cleanup (h fs).1 = preview_cleanup fs;
  handler_filename_only fs : Forall (fun c => exists n, c = SetFilename n) (h fs).2
}.

Definition step (s : sys) (e : event) : sys :=
  match e with
  | FileChange files => form_event (handleFileChange files) s
  | Drag t => form_event (local (handleDrag t)) s
  | Drop files => form_event (handleDrop files) s
  | HoverEnter k => form_event (local (handleHoverEnter k)) s
  | HoverLeave => form_event (local handleHoverLeave) s
  | ClickFilter k => click_filter k s
  | Settle id o => settle id o s
  | ClickViewMode m => view_event Renderer.toggle_shown (Renderer.setViewMode m) s
  | Pointer pe => view_event Renderer.slider_shown (Renderer.handlePointer pe) s
  | MouseMove x l w => view_event Renderer.slider_shown (Renderer.handleCompareMove x l w) s
  | TouchMove x l w => view_event Renderer.slider_shown (Renderer.handleTouchMove x l w) s
  | OriginalLoad => view_event Renderer.original_onload_shown Renderer.handleOriginalLoad s
  | ClickTab t => click_tab t s
  | WindowMouseMove x y => with_app (setMousePosition x y (app s)) s
  end.

Definition run (s : sys) (es : list event) : sys := fold_left step es s.

(** The states reachable from the initial page by events satisfying
    [P] (all events when [P] is trivial). *)
Inductive reachable_by (P : event -> Prop) : sys -> Prop :=
  | reachable_init : reachable_by P init_sys
  | reachable_step s e : reachable_by P s -> P e -> reachable_by P (step s e).

Definition reachable : sys -> Prop := reachable_by (fun _ => True).

(** What the page shows in ProcessedImage's place. *)
Definition shown_view (s : sys) : option Renderer.pimg_view :=
  option_map (Renderer.render (pimg_props (app s))) (view s).

(** ** Frame lemmas: what each helper leaves alone *)

Lemma apply_cmds_activeTab a cs : activeTab (apply_cmds a cs) = activeTab a.
Proof.
  unfold apply_cmds. revert a. induction cs as [|c cs IH]; intros a; [done|].
  simpl. rewrite IH. by destruct c.
Qed.

Lemma update_app_frame cs s :
  form (update_app cs s) = form s /\ blobs (update_app cs s) = blobs s /\
  pending (update_app cs s) = pending s /\ sent (update_app cs s) = sent s /\
  next_req (update_app cs s) = next_req s /\ next_form (update_app cs s) = next_form s /\
  activeTab (app (update_app cs s)) = activeTab (app s) /\
  (view (update_app cs s) = None <-> view s = None).
Proof.
  unfold update_app, apply_cmds. simpl. split_and!; try done.
  - apply apply_cmds_activeTab.
  - destruct (view s); naive_solver.
Qed.

(** The ingestion handlers implement [IngestionHandler]. *)
Lemma handleFileChange_handler files : IngestionHandler (handleFileChange files).
Proof.
  split; intros fs; unfold handleFileChange; simpl; destruct (head files); try done;
    case_match; repeat constructor; eauto.
Qed.

Lemma handleDrop_handler files : IngestionHandler (handleDrop files).
Proof.
  split; intros fs; unfold handleDrop; simpl; destruct (head files); try done;
    repeat case_match; repeat constructor; eauto.
Qed.

Lemma handleDrag_handler t : IngestionHandler (local (handleDrag t)).
Proof. split; intros fs; [by destruct t | constructor]. Qed.

Lemma handleHoverEnter_handler k : IngestionHandler (local (handleHoverEnter k)).
Proof. split; intros fs; [done | constructor]. Qed.

Lemma handleHoverLeave_handler : IngestionHandler (local handleHoverLeave).
Proof. split; intros fs; [done | constructor]. Qed.

#[export] Existing Instances handleFileChange_handler handleDrop_handler handleDrag_handler
  handleHoverEnter_handler handleHoverLeave_handler.

(** ** The blob-URL invariant *)

(** The URLs the mounted form's preview effect holds. *)
Definition form_live (fo : option (nat * form_state)) : gset nat :=
  match fo with
  | Some (_, fs) => match preview_cleanup fs with Some u => {[u]} | None => ∅ end
  | None => ∅
  end.

Definition blob_inv (fo : option (nat * form_state)) (bs : ObjectURL.store) : Prop :=
  ObjectURL.live bs = form_live fo /\
  (forall i fs, fo = Some (i, fs) -> preview fs = preview_cleanup fs) /\
  ObjectURL.wf bs.

Lemma blob_inv_same_preview i j fs fs' bs :
  blob_inv (Some (i, fs)) bs ->
  preview fs' = preview fs -> preview_cleanup fs' = preview_cleanup fs ->
  blob_inv (Some (j, fs')) bs.
Proof.
  intros (Hl & Hp & Hwf) H1 H2. unfold blob_inv, form_live in *.
  rewrite H2. split_and!; try done.
  intros ? ? [= <- <-]. rewrite H1, H2. by eapply Hp.
Qed.

(** The cleanup's URL is live. *)
Lemma cleanup_live fo i fs u bs :
  blob_inv fo bs -> fo = Some (i, fs) -> preview_cleanup fs = Some u ->
  u ∈ ObjectURL.live bs.
Proof. intros (Hl & _ & _) -> Hc. rewrite Hl. simpl. rewrite Hc. set_solver. Qed.

(** Revoking the cleanup's URL, then creating a fresh one, keeps the
    invariant. *)
Lemma run_preview_effect_inv i fs bs :
  blob_inv (Some (i, fs)) bs ->
  blob_inv (Some (i, (run_preview_effect fs bs).1)) (run_preview_effect fs bs).2.
Proof.
  intros Hinv. pose proof Hinv as (Hl & _ & Hwf).
  unfold run_preview_effect, blob_inv, form_live in *. simpl in Hl.
  destruct (preview_cleanup fs) as [u|] eqn:Hc.
  - pose proof (ObjectURL.revoke_wf u bs Hwf ltac:(rewrite Hl; set_solver)) as Hwf'.
    destruct (selectedFile fs); simpl; split_and!;
      first [by intros ? ? [= <- <-] | exact (ObjectURL.create_wf _ Hwf')
            | done | rewrite Hl; set_solver].
  - destruct (selectedFile fs); simpl; split_and!;
      first [by intros ? ? [= <- <-] | exact (ObjectURL.create_wf _ Hwf)
            | done | rewrite Hl; set_solver].
Qed.

(** A form handler followed by the commit of the preview effect. *)
Lemma commit_form_inv i fs fs1 bs :
  blob_inv (Some (i, fs)) bs ->
  preview fs1 = preview fs -> preview_cleanup fs1 = preview_cleanup fs ->
  blob_inv (Some (i, (commit_form fs fs1 bs).1)) (commit_form fs fs1 bs).2.
Proof.
  intros Hinv H1 H2. pose proof (blob_inv_same_preview i i fs fs1 bs Hinv H1 H2).
  unfold commit_form. case_decide; [done|]. by apply run_preview_effect_inv.
Qed.

Lemma unmount_form_inv i fs bs :
  blob_inv (Some (i, fs)) bs -> blob_inv None (unmount_form fs bs).
Proof.
  intros Hinv. pose proof Hinv as (Hl & _ & Hwf). unfold unmount_form, blob_inv, form_live in *.
  simpl in Hl. destruct (preview_cleanup fs) as [u|] eqn:Hc.
  - split_and!; [| done | apply ObjectURL.revoke_wf; [done | rewrite Hl; set_solver]].
    rewrite ObjectURL.revoke_live, Hl. set_solver.
  - done.
Qed.

Lemma mount_form_inv j bs :
  blob_inv None bs ->
  blob_inv (Some (j, (run_preview_effect init_form bs).1)) (run_preview_effect init_form bs).2.
Proof. intros (Hl & _ & Hwf). split_and!; [done | by intros ? ? [= <- <-] | done]. Qed.

(** ** The invariant of reachable states *)

(** Both children are mounted exactly on the "upload" tab. *)
Definition mount_inv (s : sys) : Prop :=
  match activeTab (app s) with
  | TabUpload => form s ≠ None /\ view s ≠ None
  | TabAbout => form s = None /\ view s = None
  end.

(** Requests in flight have distinct numbers, numbers and form
    instances already handed out, and the mounted form's instance
    number was handed out too. *)
Definition req_inv (s : sys) : Prop :=
  NoDup (map req_id (pending s)) /\
  (forall r, r ∈ pending s -> req_id r < next_req s /\ req_form r < next_form s) /\
  (forall i fs, form s = Some (i, fs) -> i < next_form s).

Definition inv (s : sys) : Prop :=
  mount_inv s /\ blob_inv (form s) (blobs s) /\ req_inv s.

Lemma init_inv : inv init_sys.
Proof.
  split_and!; [done | | split_and!].
  - split_and!; [done | by intros ? ? [= <- <-] | apply ObjectURL.empty_wf].
  - constructor.
  - intros r Hr. inversion Hr.
  - intros ? ? [= <- <-]. simpl. lia.
Qed.

Lemma form_event_inv h `{!IngestionHandler h} s : inv s -> inv (form_event h s).
Proof.
  intros Hinv. unfold form_event.
  destruct (form s) as [[i fs]|] eqn:Hf; [|done].
  destruct Hinv as (Hm & Hb & Hn & Hlt & Hi). rewrite Hf in Hb, Hi.
  destruct (h fs) as [fs1 cs] eqn:Eh. destruct (handler_keeps_preview fs) as [H1 H2]. rewrite Eh in H1, H2.
  pose proof (commit_form_inv i fs fs1 (blobs s) Hb H1 H2) as Hc.
  destruct (commit_form fs fs1 (blobs s)) as [fs2 bs] eqn:Ec. cbv beta iota.
  unfold inv, mount_inv, req_inv.
  destruct (update_app_frame cs (with_blobs bs (with_form (Some (i, fs2)) s)))
    as (-> & -> & -> & _ & -> & -> & -> & Hv).
  simpl in *. split_and!; try done.
  - unfold mount_inv in Hm. rewrite Hf in Hm. destruct (activeTab (app s)); [|naive_solver].
    split; [done|]. rewrite Hv. naive_solver.
  - intros ? ? [= <- <-]. by eapply Hi.
Qed.

Lemma view_event_inv shown h s : inv s -> inv (view_event shown h s).
Proof.
  intros Hinv. unfold view_event. destruct (view s) eqn:Hv; [|done].
  case_match; [|done]. destruct Hinv as (Hm & Hb & Hr).
  unfold inv, mount_inv in *. simpl. split_and!; try done.
  destruct (activeTab (app s)); naive_solver.
Qed.

Lemma click_filter_inv k s : inv s -> inv (click_filter k s).
Proof.
  intros Hinv. unfold click_filter.
  destruct (form s) as [[i fs]|] eqn:Hf; [|done].
  destruct (selectedFile fs) as [f|] eqn:Hsel; simpl; [|done].
  destruct Hinv as (Hm & Hb & Hn & Hlt & Hi). rewrite Hf in Hb, Hi.
  unfold handleUpload_start. rewrite Hsel.
  unfold inv, mount_inv, req_inv. simpl.
  split_and!.
  - unfold mount_inv in Hm. rewrite Hf in Hm. destruct (activeTab (app s)); [|naive_solver].
    split; [done|]. destruct (view s); naive_solver.
  - by eapply blob_inv_same_preview.
  - rewrite map_app. apply NoDup_app. split_and!; [done| |apply NoDup_singleton].
    intros x Hx ->%list_elem_of_singleton.
    apply list_elem_of_fmap in Hx as (r & Hr & Hin). apply Hlt in Hin. simpl in *. lia.
  - intros r [Hr%Hlt | ->%list_elem_of_singleton]%elem_of_app; simpl; [lia|].
    split; [lia|]. by eapply Hi.
  - intros ? ? [= <- <-]. by eapply Hi.
Qed.

Lemma find_request_Some id rs r :
  find_request id rs = Some r -> r ∈ rs /\ req_id r = id.
Proof.
  unfold find_request. intros Hf. apply find_some in Hf as [Hin Heq].
  split; [by apply list_elem_of_In | by apply Nat.eqb_eq].
Qed.

Lemma settle_inv id o s : inv s -> inv (settle id o s).
Proof.
  intros Hinv. unfold settle.
  destruct (find_request id (pending s)) as [r|] eqn:Hfind; [|done].
  destruct (handleUpload_finish (req_post r) o) as [cs err]. cbv beta iota.
  destruct Hinv as (Hm & Hb & Hn & Hlt & Hi).
  assert (Hflt : forall r', r' ∈ List.filter (fun r' => negb (Nat.eqb (req_id r') id)) (pending s) ->
                           r' ∈ pending s).
  { intros r' Hr'. apply list_elem_of_In in Hr'. apply filter_In in Hr' as [Hr' _].
    by apply list_elem_of_In. }
  unfold inv, mount_inv, req_inv. simpl.
  destruct err as [m|]; destruct (form s) as [[i fs]|] eqn:Hf; simpl;
    try case_decide; simpl; split_and!; try (by apply NoDup_map_filter);
    try (intros r' Hr'%Hflt; by apply Hlt);
    try (intros ? ? [= <- <-]; eapply Hi; done);
    unfold mount_inv in Hm; rewrite ?Hf in Hm; try (by eapply blob_inv_same_preview);
    rewrite ?apply_cmds_activeTab; destruct (activeTab (app s)); destruct (view s); naive_solver.
Qed.

Lemma click_tab_inv t s : inv s -> inv (click_tab t s).
Proof.
  intros Hinv. unfold click_tab. case_decide as Ht; [done|].
  destruct Hinv as (Hm & Hb & Hn & Hlt & Hi). unfold mount_inv in Hm.
  destruct t.
  - destruct (activeTab (app s)) eqn:Ha; [done|]. destruct Hm as [Hf Hv].
    rewrite Hf in Hb.
    pose proof (mount_form_inv (next_form s) (blobs s) Hb) as Hb'.
    destruct (run_preview_effect init_form (blobs s)) as [fs bs]. cbv beta iota.
    unfold inv, mount_inv, req_inv. simpl. split_and!; try done.
    + intros r Hr. destruct (Hlt r Hr). lia.
    + intros ? ? [= <- <-]. lia.
  - destruct (activeTab (app s)) eqn:Ha; [|done]. destruct Hm as [Hf Hv].
    unfold inv, mount_inv, req_inv. simpl. split_and!; try done.
    destruct (form s) as [[i fs]|]; [|done]. by eapply unmount_form_inv.
Qed.

Lemma step_inv s e : inv s -> inv (step s e).
Proof.
  intros Hinv. destruct e; simpl.
  1-5: apply form_event_inv; first [exact Hinv | apply _].
  - by apply click_filter_inv.
  - by apply settle_inv.
  - by apply view_event_inv.
  - by apply view_event_inv.
  - by apply view_event_inv.
  - by apply view_event_inv.
  - by apply view_event_inv.
  - by apply click_tab_inv.
  - destruct Hinv as (Hm & Hb & Hr). done.
Qed.

Lemma reachable_by_inv P s : reachable_by P s -> inv s.
Proof. induction 1; [apply init_inv | by apply step_inv]. Qed.

Lemma reachable_run es s : reachable s -> reachable (run s es).
Proof.
  revert s. induction es as [|e es IH]; intros s Hs; [done|].
  apply IH. by constructor.
Qed.

Lemma apply_cmds_app a l1 l2 : apply_cmds a (l1 ++ l2) = apply_cmds (apply_cmds a l1) l2.
Proof. apply fold_left_app. Qed.

(** A batch of setters ending with [setIsProcessing(b)] leaves [b]. *)
Lemma apply_cmds_last_processing a cs b :
  isProcessing (apply_cmds a (cs ++ [SetIsProcessing b])) = b.
Proof. by rewrite apply_cmds_app. Qed.

(** ** What a click and a settlement do, field by field *)

Definition request_of (s : sys) (i : nat) (f : file) (k : Catalog.filter_kind) : request :=
  {| req_id := next_req s; req_form := i;
     req_post := {| post_file := f; post_filter := Catalog.filter_key k |} |}.

Lemma click_filter_facts s i fs f k :
  form s = Some (i, fs) -> selectedFile fs = Some f ->
  let s' := step s (ClickFilter k) in
  app s' = apply_cmds (app s) [SetIsProcessing true] /\
  form s' = Some (i, setError None fs) /\
  view s' = view s /\
  pending s' = pending s ++ [request_of s i f k] /\
  sent s' = sent s ++ [request_of s i f k] /\
  blobs s' = blobs s /\ next_req s' = S (next_req s).
Proof.
  intros Hf Hs. simpl. unfold click_filter. rewrite Hf, Hs. simpl.
  unfold handleUpload_start. rewrite Hs. simpl. split_and!; try done.
  destruct (view s) as [v|]; [|done]. simpl. unfold Renderer.filter_effect.
  by rewrite decide_True.
Qed.

Lemma settle_facts s id o r :
  find_request id (pending s) = Some r ->
  let s' := step s (Settle id o) in
  app s' = apply_cmds (app s) (handleUpload_finish (req_post r) o).1 /\
  pending s' = List.filter (fun r' => negb (Nat.eqb (req_id r') id)) (pending s) /\
  sent s' = sent s /\ blobs s' = blobs s /\
  (view s' = None <-> view s = None) /\
  (forall i fs, form s = Some (i, fs) ->
     form s' = Some (i, if decide (i = req_form r)
                        then match (handleUpload_finish (req_post r) o).2 with
                             | Some m => setError (Some m) fs
                             | None => fs
                             end
                        else fs)) /\
  (form s = None -> form s' = None).
Proof.
  intros Hfind. simpl. unfold settle. rewrite Hfind.
  destruct (handleUpload_finish (req_post r) o) as [cs err]. cbv beta iota.
  destruct err as [m|]; destruct (form s) as [[i fs]|] eqn:Hform; simpl;
    try case_decide; simpl; split_and!; try done;
    try (destruct (view s); naive_solver); try naive_solver;
    intros ? ? [= <- <-]; by case_decide.
Qed.

(** Filtering out a number no request carries changes nothing. *)
Lemma filter_other_ids (l : list request) id :
  (forall r, r ∈ l -> req_id r ≠ id) ->
  List.filter (fun r' => negb (Nat.eqb (req_id r') id)) l = l.
Proof.
  induction l as [|r l IH]; intros Hl; [done|]. simpl.
  rewrite (proj2 (Nat.eqb_neq _ _)) by (apply Hl; set_solver). simpl.
  f_equal. apply IH. intros r' Hr'. apply Hl. set_solver.
Qed.

Lemma form_event_facts h s i fs fs1 cs :
  form s = Some (i, fs) -> h fs = (fs1, cs) ->
  let s' := form_event h s in
  app s' = apply_cmds (app s) cs /\ pending s' = pending s /\ sent s' = sent s /\
  form s' = Some (i, (commit_form fs fs1 (blobs s)).1) /\
  blobs s' = (commit_form fs fs1 (blobs s)).2 /\
  view s' = option_map (Renderer.filter_effect (filter (app s))
                          (filter (apply_cmds (app s) cs))) (view s).
Proof.
  intros Hf Hh. unfold form_event. rewrite Hf, Hh.
  by destruct (commit_form fs fs1 (blobs s)).
Qed.

Lemma reachable_by_run (P : event -> Prop) es s :
  reachable_by P s -> Forall P es -> reachable_by P (run s es).
Proof.
  revert s. induction es as [|e es IH]; intros s Hs Hes; [done|].
  apply Forall_cons in Hes as [He Hes]. apply IH; [by constructor | done].
Qed.

End System.
