(* ===== verification/FormView.v ===== *)
(** * FormView: what UploadForm and App render

    The JSX of src/DIP/src/components/UploadForm.jsx (lines 134-252) and
    of src/DIP/src/App.jsx (lines 24-140) as view descriptions: the drop
    area with its preview background and thumbnail or its prompt, the
    error box, and one button per entry of [filterInfo] with its icon,
    its label [filter.replace('_', ' ')], its [disabled] flag and its
    tooltip; and the page around them: the light that follows the
    pointer, the two tab buttons with the active one highlighted, and
    the upload body (both children) or the about body.

    The theorems relate these views to the page's state: the page is
    never half mounted, every object URL the form displays is live, and
    at most one tooltip is shown, the one of the hovered filter. *)

From stdpp Require Import base list strings sets gmap.
From Stdlib Require Import QArith Ascii.
From S2P Require Import Prelude JsRuntime Catalog Ingestion Submission Renderer System.

Module FormView.

Import JsString Ingestion System.

#[local] Open Scope nat_scope.

(** ** UploadForm's render *)

(** Inside the drop area: the thumbnail of the selection with its name,
    or the prompt. *)
Inductive drop_content :=
  | Thumbnail (src : option nat) (name : string)
  | Prompt.

Record filter_button := {
  button_filter : string;
  button_icon : string;
  button_label : string;
  button_disabled : bool;
  tooltip : option string
}.

Record form_view := {
  drop_active : bool;
  drop_selected : bool;
  preview_background : option nat;
  content : drop_content;
  error_box : option string;
  buttons : list filter_button
}.

(** One entry of [Object.entries(filterInfo).map(...)]: the tooltip is
    rendered when [hoverFilter === filter]. *)
Definition render_button (st : form_state) (entry : Catalog.filter_kind * Catalog.filter_info)
    : filter_button :=
  let '(k, info) := entry in
  let filter := Catalog.filter_key k in
  {| button_filter := filter;
     button_icon := Catalog.icon info;
     button_label := replace_first "_"%char " " filter;
     button_disabled := negb (bool_decide (is_Some (selectedFile st)));
     tooltip := if decide (hoverFilter st = Some filter)
                then Some (Catalog.description info) else None |}.

(** The object URL in [preview] is a non-empty string, so
    [{preview && ...}] renders the background exactly when it is set;
    [{error && ...}] renders the box for a non-empty message. *)
Definition form_render (st : form_state) : form_view :=
  {| drop_active := dragActive st;
     drop_selected := bool_decide (is_Some (selectedFile st));
     preview_background := preview st;
     content := match selectedFile st with
                | Some f => Thumbnail (preview st) (file_name f)
                | None => Prompt
                end;
     error_box := if truthy (error st) then error st else None;
     buttons := map (render_button st) Catalog.filterInfo |}.

(** The object URLs an [<img src>] of the form points at. *)
Definition shown_urls (v : form_view) : list nat :=
  from_option (fun u => [u]) [] (preview_background v) ++
  match content v with
  | Thumbnail (Some u) _ => [u]
  | _ => []
  end.

(** ** App's render *)

Inductive body :=
  | UploadBody (form_part : option form_view) (result_part : option Renderer.pimg_view)
  | AboutBody (items : list (string * string)).

Record page_view := {
  light : Q * Q;
  tabs : list (string * bool);
  page_body : body;
  footer : string
}.

(** The light is placed at [mousePosition - 192] on both axes; a tab
    button is highlighted when [activeTab] is its tab. *)
Definition page_render (s : sys) : page_view :=
  let a := app s in
  {| light := ((fst (mousePosition a) - 192)%Q, (snd (mousePosition a) - 192)%Q);
     tabs := [("Upload & Process", bool_decide (activeTab a = TabUpload));
              ("About Filters", bool_decide (activeTab a = TabAbout))];
     page_body := match activeTab a with
                  | TabUpload =>
                      UploadBody (option_map (fun '(_, fs) => form_render fs) (form s))
                        (shown_view s)
                  | TabAbout => AboutBody Catalog.about_filters
                  end;
     footer := "v1.3.0" |}.

(** A sample file for the witnesses. *)
Definition cat_png : file := {| file_id := 1; file_name := "cat.png"; file_size := 1024 |}.

(** ** Lemmas *)

Lemma shown_urls_preview fs u : u ∈ shown_urls (form_render fs) -> preview fs = Some u.
Proof.
  unfold shown_urls, form_render. simpl.
  destruct (preview fs), (selectedFile fs); simpl; set_solver.
Qed.

(** ** Properties of the rendered page *)

(** C32: the page is never half mounted: on the "upload" tab both the
    form and the result panel are rendered, and on the "about" tab
    neither component is mounted. *)
Theorem page_never_half_mounted s :
  reachable s ->
  match page_body (page_render s) with
  | UploadBody fv pv => is_Some fv /\ is_Some pv
  | AboutBody _ => form s = None /\ view s = None
  end.
Proof.
  intros Hr. destruct (reachable_by_inv _ _ Hr) as (Hm & _). unfold mount_inv in Hm.
  unfold page_render, shown_view. simpl.
  destruct (activeTab (app s)); [|done].
  destruct (form s) as [[i fs]|], (view s); naive_solver.
Qed.

(** C33: every object URL the form displays (the preview background
    and the thumbnail) is live and was never revoked: the page never
    points an [<img>] at a released blob. *)
Theorem displayed_urls_live s i fs u :
  reachable s -> form s = Some (i, fs) -> u ∈ shown_urls (form_render fs) ->
  u ∈ ObjectURL.live (blobs s) /\ u ∉ ObjectURL.revoked (blobs s).
Proof.
  intros Hr Hf Hu. destruct (reachable_by_inv _ _ Hr) as (_ & (Hlive & Hprev & Hwf) & _).
  apply shown_urls_preview in Hu. rewrite (Hprev i fs Hf) in Hu.
  assert (Hl : u ∈ ObjectURL.live (blobs s)).
  { rewrite Hlive, Hf. simpl. rewrite Hu. set_solver. }
  split; [done|]. destruct Hwf as (_ & Hdis & _). by apply Hdis.
Qed.

(** C34: at most one tooltip is on screen, and a button shows its
    tooltip only while the pointer is over that filter. *)
Theorem at_most_one_tooltip st :
  length (omap tooltip (buttons (form_render st))) <= 1 /\
  (forall b, b ∈ buttons (form_render st) -> is_Some (tooltip b) ->
     hoverFilter st = Some (button_filter b)).
Proof.
  split.
  - apply omap_map_le1; [apply Catalog.filterInfo_NoDup|].
    intros [k1 i1] [k2 i2] H1 H2 Ht1 Ht2. apply Catalog.filterInfo_entry_unique; [done..|].
    unfold render_button in Ht1, Ht2. simpl in *.
    do 2 case_decide; try by destruct Ht1; try by destruct Ht2. congruence.
  - intros b Hb Ht. apply list_elem_of_fmap in Hb as ([k info] & -> & _).
    unfold render_button in *. simpl in *. case_decide; [done|]. by destruct Ht.
Qed.

(** ** Witnesses *)

Lemma page_never_half_mounted_witness :
  match page_body (page_render (run init_sys [ClickTab TabAbout; ClickTab TabUpload])) with
  | UploadBody fv pv => is_Some fv /\ is_Some pv
  | AboutBody _ => form (run init_sys [ClickTab TabAbout; ClickTab TabUpload]) = None /\
                   view (run init_sys [ClickTab TabAbout; ClickTab TabUpload]) = None
  end.
Proof. apply page_never_half_mounted, reachable_run, reachable_init. Defined.

Lemma displayed_urls_live_witness :
  0 ∈ ObjectURL.live (blobs (run init_sys [Drop [cat_png]])) /\
  0 ∉ ObjectURL.revoked (blobs (run init_sys [Drop [cat_png]])).
Proof.
  refine (displayed_urls_live (run init_sys [Drop [cat_png]]) 0 _ 0
            (reachable_run _ _ (reachable_init _)) eq_refl _).
  apply list_elem_of_In. vm_compute. auto.
Defined.

End FormView.
