(* ===== verification/PageProperties.v ===== *)
(** * PageProperties: what the whole page guarantees, and where it does not

    Theorems about [System.step] and the reachable states: the
    preview URL discipline across selections and tab switches, the
    life cycle of a submission as the user sees it (the spec's
    blur/cat.png example), transport failures, the view-mode toggle,
    responses that arrive after UploadForm was remounted, the slider
    bound over any reachable page, and the two interleavings where the
    page departs from the specification's ProcessingState: overlapping
    submissions and a new selection after a result. *)

From stdpp Require Import base list strings gmap sets.
From Stdlib Require Import QArith Lqa Ascii.
From S2P Require Import Prelude JsRuntime Catalog Ingestion Submission Renderer System.

Module PageProperties.

Import Ingestion Submission System.

#[local] Open Scope nat_scope.

(** The URL the preview of a mounted form shows, as a set. *)
Definition preview_urls (fo : option (nat * form_state)) : gset nat :=
  match fo with
  | Some (_, fs) => match preview fs with Some u => {[u]} | None => ∅ end
  | None => ∅
  end.

(** Sample files for the concrete scenarios below. *)
Definition cat_png : file := {| file_id := 1; file_name := "cat.png"; file_size := 1024 |}.
Definition dog_png : file := {| file_id := 2; file_name := "dog.png"; file_size := 2048 |}.

(** The events that settle each request of [l] in turn, with the
    outcomes [os] chooses. *)
Definition settle_all (os : request -> outcome) (l : list request) : list event :=
  map (fun r => Settle (req_id r) (os r)) l.

(** Pointer events over a container of positive width. *)
Definition positive_width (e : event) : Prop :=
  match e with
  | MouseMove _ _ w | TouchMove _ _ w => (0 < w)%Q
  | _ => True
  end.

(** The slider position of the mounted view, if any, is in range. *)
Definition slider_ok (vo : option Renderer.pimg_state) : Prop :=
  forall v, vo = Some v -> JsNumber.in_range 0 100 (Renderer.comparePosition v).

Lemma form_live_preview_urls s :
  inv s -> form_live (form s) = preview_urls (form s).
Proof.
  intros (_ & (_ & Hp & _) & _). unfold form_live, preview_urls.
  destruct (form s) as [[i fs]|]; [|done]. by rewrite (Hp i fs).
Qed.

(** C10: in every reachable page the live object URLs are exactly the
    mounted form's preview (at most one), and no URL was ever revoked
    twice. *)
Theorem live_urls_are_preview s :
  reachable s ->
  ObjectURL.live (blobs s) = preview_urls (form s) /\ NoDup (ObjectURL.revoked (blobs s)).
Proof.
  intros Hr. pose proof (reachable_by_inv _ _ Hr) as Hinv.
  rewrite <- form_live_preview_urls by done.
  destruct Hinv as (_ & (Hl & _ & Hnd & _) & _). done.
Qed.

(** C17: on the "about" tab no object URL is live: leaving the upload
    tab released the preview. *)
Theorem about_tab_no_live_url s :
  reachable s -> activeTab (app s) = TabAbout -> ObjectURL.live (blobs s) = ∅.
Proof.
  intros Hr Ht. destruct (reachable_by_inv _ _ Hr) as (Hm & (Hl & _) & _).
  unfold mount_inv in Hm. rewrite Ht in Hm. destruct Hm as [Hf _].
  by rewrite Hl, Hf.
Qed.

(** C22: without a selected file the filter buttons are disabled, so a
    click changes nothing: no request, no error message, no state. *)
Theorem click_without_file_inert s i fs k :
  form s = Some (i, fs) -> selectedFile fs = None -> step s (ClickFilter k) = s.
Proof. intros Hf Hs. simpl. unfold click_filter. by rewrite Hf, Hs. Qed.

(** C31: clicking the view-mode button of the mode already active
    leaves the whole page unchanged: the slider position, every other
    state and the network. *)
Theorem set_view_mode_idempotent s v m :
  view s = Some v -> Renderer.viewMode v = m -> step s (ClickViewMode m) = s.
Proof.
  intros Hv Hm. simpl. unfold view_event. rewrite Hv. case_match; [|done].
  destruct v, s; simpl in *; subst. reflexivity.
Qed.

Lemma filter_key_nonempty k : Catalog.filter_key k ≠ "".
Proof. by destruct k. Qed.

Lemma run_two s e1 e2 : run s [e1; e2] = step (step s e1) e2.
Proof. reflexivity. Qed.

Lemma run_three s e1 e2 e3 : run s [e1; e2; e3] = step (step (step s e1) e2) e3.
Proof. reflexivity. Qed.

(** C13: from an idle page with a selected file, clicking a filter and
    a successful response publish the file name and the filter to App,
    clear [isProcessing], leave no request in flight after exactly one
    was sent, and put [processed/<filter>_<name>] on screen. *)
Theorem upload_success_shows_result s i fs f v k e :
  form s = Some (i, fs) -> selectedFile fs = Some f -> view s = Some v ->
  pending s = [] -> file_name f ≠ "" ->
  let s2 := run s [ClickFilter k; Settle (next_req s) (Response true e)] in
  filename (app s2) = Some (file_name f) /\
  filter (app s2) = Some (Catalog.filter_key k) /\
  isProcessing (app s2) = false /\ pending s2 = [] /\
  sent s2 = sent s ++ [request_of s i f k] /\
  exists v', view s2 = Some v' /\
    Renderer.shown_processed (Renderer.render (pimg_props (app s2)) v') =
      ["http://127.0.0.1:5000/processed/" +:+ Catalog.filter_key k +:+ "_" +:+ file_name f].
Proof.
  intros Hf Hs Hv Hp Hne. cbv zeta. rewrite run_two.
  destruct (click_filter_facts s i fs f k Hf Hs) as (Ha1 & _ & Hv1 & Hp1 & Hs1 & _).
  set (s1 := step s (ClickFilter k)) in *.
  assert (Hfind : find_request (next_req s) (pending s1) = Some (request_of s i f k)).
  { rewrite Hp1, Hp. unfold find_request. simpl. by rewrite Nat.eqb_refl. }
  destruct (settle_facts s1 _ (Response true e) _ Hfind) as (Ha2 & Hp2 & Hs2 & _ & Hv2 & _).
  set (s2 := step s1 _) in *.
  rewrite Ha2, Ha1. simpl. split_and!; try done.
  - rewrite Hp2, Hp1, Hp. simpl. by rewrite Nat.eqb_refl.
  - by rewrite Hs2, Hs1.
  - destruct (view s2) as [v'|] eqn:Hv';
      [|destruct Hv2 as [H _]; specialize (H eq_refl); rewrite Hv1, Hv in H; discriminate].
    exists v'. split; [done|].
    apply Renderer.shown_processed_ready; simpl; auto using filter_key_nonempty.
Qed.

Lemma filter_In_iff (l : list request) id r :
  r ∈ List.filter (fun r' => negb (Nat.eqb (req_id r') id)) l <-> r ∈ l /\ req_id r ≠ id.
Proof.
  rewrite !list_elem_of_In, filter_In, negb_true_iff, Nat.eqb_neq. done.
Qed.

(** C14: a request that fails without a response leaves the published
    file name and filter as they were (the previous result stays on
    screen), clears [isProcessing], is no longer in flight, and shows
    the "server might be offline" message on the form that sent it. *)
Theorem network_failure_keeps_result s id r :
  find_request id (pending s) = Some r ->
  let s' := step s (Settle id NetworkError) in
  filename (app s') = filename (app s) /\ filter (app s') = filter (app s) /\
  isProcessing (app s') = false /\
  (forall r', r' ∈ pending s' -> req_id r' ≠ id) /\
  (forall fs, form s = Some (req_form r, fs) ->
     exists fs', form s' = Some (req_form r, fs') /\ error fs' = Some offline_msg).
Proof.
  intros Hfind. cbv zeta.
  destruct (settle_facts s id NetworkError r Hfind) as (Ha & Hp & _ & _ & _ & Hf & _).
  rewrite Ha, Hp. split_and!; try done.
  - intros r' Hr'%filter_In_iff. apply Hr'.
  - intros fs Hfs. rewrite (Hf _ _ Hfs), decide_True by done. by eexists.
Qed.

(** C18: two overlapping submissions from an idle page: when the first
    settles, whatever its outcome, [isProcessing] is already false
    although the second request is still in flight, so the page shows
    no spinner (and may show a result) while a request is pending. *)
Theorem overlapping_submissions_clear_flag s i fs f k1 k2 o :
  form s = Some (i, fs) -> selectedFile fs = Some f -> pending s = [] ->
  let s3 := run s [ClickFilter k1; ClickFilter k2; Settle (next_req s) o] in
  isProcessing (app s3) = false /\ map req_id (pending s3) = [S (next_req s)].
Proof.
  intros Hf Hs Hp. cbv zeta. rewrite run_three.
  destruct (click_filter_facts s i fs f k1 Hf Hs) as (_ & Hf1 & _ & Hp1 & _ & _ & Hn1).
  set (s1 := step s (ClickFilter k1)) in *.
  destruct (click_filter_facts s1 i (setError None fs) f k2 Hf1 Hs) as (_ & _ & _ & Hp2 & _ & _ & _).
  set (s2 := step s1 (ClickFilter k2)) in *.
  assert (Hfind : find_request (next_req s) (pending s2) = Some (request_of s i f k1)).
  { rewrite Hp2, Hp1, Hp. unfold find_request. simpl. by rewrite Nat.eqb_refl. }
  destruct (settle_facts s2 _ o _ Hfind) as (Ha3 & Hp3 & _).
  destruct (handleUpload_finish_last (req_post (request_of s i f k1)) o) as [cs0 Hcs].
  rewrite Ha3, Hcs, apply_cmds_last_processing. split; [done|].
  rewrite Hp3, Hp2, Hp1, Hp. unfold request_of. rewrite Hn1.
  cbn [List.filter List.app req_id].
  rewrite Nat.eqb_refl, (proj2 (Nat.eqb_neq (S (next_req s)) (next_req s))) by lia.
  done.
Qed.

(** C19: a response that arrives after UploadForm was unmounted and
    mounted again does not touch the new form, so the error it carries
    is lost, while its App setters still apply: App's state is exactly
    the result of the continuation's setter calls. *)
Theorem late_response_spares_new_form s id o r i fs :
  find_request id (pending s) = Some r -> form s = Some (i, fs) -> req_form r ≠ i ->
  form (step s (Settle id o)) = Some (i, fs) /\
  app (step s (Settle id o)) = apply_cmds (app s) (handleUpload_finish (req_post r) o).1.
Proof.
  intros Hfind Hf Hne.
  destruct (settle_facts s id o r Hfind) as (Ha & _ & _ & _ & _ & Hform & _).
  split; [|done]. rewrite (Hform _ _ Hf). by rewrite decide_False.
Qed.

(** A dropped file within the limit with an allowed name, as
    [handleDrop] treats it. *)
Lemma handleDrop_accepted fs g rest :
  (file_size g <= MAX_SIZE)%N -> allowed_file (file_name g) = true ->
  handleDrop (g :: rest) fs =
  (setSelectedFile g (setError None (setDragActive false fs)), [SetFilename (file_name g)]).
Proof.
  intros Hsz Hok. unfold handleDrop. simpl.
  by rewrite (proj2 (size_check_false _) Hsz), Hok.
Qed.

(** A file chosen in the picker within the limit, as [handleFileChange]
    treats it. *)
Lemma handleFileChange_accepted fs g rest :
  (file_size g <= MAX_SIZE)%N ->
  handleFileChange (g :: rest) fs =
  (setSelectedFile g (setError None fs), [SetFilename (file_name g)]).
Proof.
  intros Hsz. unfold handleFileChange. simpl.
  by rewrite (proj2 (size_check_false _) Hsz).
Qed.

(** C20: after a result for filter [fl] is on screen, choosing another
    file in the file picker ([handleFileChange]) publishes its name but
    keeps [fl]: the page shows
    [processed/<fl>_<new name>], an artifact of a pair that was never
    submitted (no request is sent by the selection). *)
Theorem new_selection_pairs_old_filter s i fs g fl :
  form s = Some (i, fs) -> filter (app s) = Some fl -> fl ≠ "" ->
  isProcessing (app s) = false -> file_name g ≠ "" ->
  (file_size g <= MAX_SIZE)%N ->
  let s' := step s (FileChange [g]) in
  filename (app s') = Some (file_name g) /\ filter (app s') = Some fl /\
  sent s' = sent s /\
  (forall v, view s' = Some v ->
     Renderer.shown_processed (Renderer.render (pimg_props (app s')) v) =
       ["http://127.0.0.1:5000/processed/" +:+ fl +:+ "_" +:+ file_name g]).
Proof.
  intros Hf Hfl Hne Hp Hgn Hsz. cbv zeta. simpl step.
  destruct (form_event_facts (handleFileChange [g]) s i fs _ _ Hf
              (handleFileChange_accepted fs g [] Hsz))
    as (Ha & _ & Hs & _).
  rewrite Ha, Hs. simpl. split_and!; try done.
  intros v _. apply Renderer.shown_processed_ready; simpl; done.
Qed.

Lemma NoDup_ids_cons r l :
  NoDup (map req_id (r :: l)) ->
  NoDup (map req_id l) /\ (forall r', r' ∈ l -> req_id r' ≠ req_id r).
Proof.
  simpl. intros [Hr Hl]%NoDup_cons. split; [done|].
  intros r' Hr' Heq. apply Hr. apply list_elem_of_In. rewrite <- Heq.
  apply in_map. by apply list_elem_of_In.
Qed.

(** With distinct numbers, a request is found by its number. *)
Lemma find_request_unique r l :
  NoDup (map req_id l) -> r ∈ l -> find_request (req_id r) l = Some r.
Proof.
  induction l as [|r' l IH]; intros Hnd Hr; [set_solver|].
  destruct (NoDup_ids_cons r' l Hnd) as [Hnd' Hne].
  unfold find_request. simpl. destruct (Nat.eqb_spec (req_id r') (req_id r)) as [Heq|Hneq].
  - apply elem_of_cons in Hr as [->|Hr]; [done|]. exfalso. by apply (Hne r Hr).
  - apply elem_of_cons in Hr as [->|Hr]; [done|]. by apply IH.
Qed.

Lemma settle_all_aux os l :
  forall s, pending s ≡ₚ l -> NoDup (map req_id (pending s)) ->
  pending (run s (settle_all os l)) = [] /\
  (l ≠ [] -> isProcessing (app (run s (settle_all os l))) = false).
Proof.
  induction l as [|r l IH]; intros s Hp Hnd.
  - apply Permutation_nil_r in Hp. done.
  - assert (Hnd2 : NoDup (map req_id (r :: l))).
    { by rewrite <- (Permutation_map req_id Hp). }
    destruct (NoDup_ids_cons r l Hnd2) as [Hnd' Hne].
    assert (Hfind : find_request (req_id r) (pending s) = Some r).
    { apply find_request_unique; [done|]. rewrite Hp. set_solver. }
    destruct (settle_facts s _ (os r) r Hfind) as (Ha & Hp1 & _).
    assert (Hp1' : pending (step s (Settle (req_id r) (os r))) ≡ₚ l).
    { rewrite Hp1, (Permutation_list_filter _ _ _ Hp). simpl. rewrite Nat.eqb_refl. simpl.
      by rewrite filter_other_ids. }
    change (run s (settle_all os (r :: l)))
      with (run (step s (Settle (req_id r) (os r))) (settle_all os l)).
    destruct (IH _ Hp1') as [IH1 IH2]; [by rewrite (Permutation_map req_id Hp1')|].
    split; [done|]. intros _.
    destruct l as [|r' l'].
    + change (run ?x (settle_all os [])) with x. rewrite Ha.
      destruct (handleUpload_finish_last (req_post r) (os r)) as [cs0 ->].
      apply apply_cmds_last_processing.
    + by apply IH2.
Qed.

(** C21: every submission terminates: from any reachable page with
    requests in flight, once each of them has settled, in any order
    and with any outcomes, none is in flight and [isProcessing] is
    false. *)
Theorem settling_all_clears s os l :
  reachable s -> l ≡ₚ pending s -> l ≠ [] ->
  let s' := run s (settle_all os l) in
  pending s' = [] /\ isProcessing (app s') = false.
Proof.
  intros Hr Hl Hne. destruct (reachable_by_inv _ _ Hr) as (_ & _ & Hnd & _).
  destruct (settle_all_aux os l s (symmetry Hl) Hnd) as [H1 H2]. auto.
Qed.

Lemma slider_ok_map f vo :
  (forall v, Renderer.comparePosition (f v) = Renderer.comparePosition v) ->
  slider_ok vo -> slider_ok (option_map f vo).
Proof. intros Hf Hok v Hv. destruct vo as [v0|]; inversion Hv; subst. rewrite Hf. auto. Qed.

Lemma filter_effect_position a b v :
  Renderer.comparePosition (Renderer.filter_effect a b v) = Renderer.comparePosition v.
Proof. unfold Renderer.filter_effect. by case_decide. Qed.

Lemma update_app_slider cs s : slider_ok (view s) -> slider_ok (view (update_app cs s)).
Proof. apply slider_ok_map, filter_effect_position. Qed.

Lemma form_event_slider h s : slider_ok (view s) -> slider_ok (view (form_event h s)).
Proof.
  intros Hok. unfold form_event. destruct (form s) as [[i fs]|]; [|done].
  destruct (h fs) as [fs1 cs]. destruct (commit_form fs fs1 (blobs s)).
  by apply update_app_slider.
Qed.

Lemma slider_ok_step s e :
  positive_width e -> slider_ok (view s) -> slider_ok (view (step s e)).
Proof.
  intros Hw Hok. destruct e; cbn [step positive_width] in *.
  1-5: by apply form_event_slider.
  - unfold click_filter. destruct (form s) as [[i fs]|]; [|done].
    case_match; [done|]. unfold handleUpload_start.
    destruct (selectedFile fs); [|by apply update_app_slider].
    cbn [view]. by apply update_app_slider.
  - unfold settle. destruct (find_request id (pending s)); [|done].
    case_match. apply update_app_slider.
    repeat case_match; done.
  - unfold view_event. destruct (view s) as [v|] eqn:Hv; [|by rewrite Hv]. case_match; [|by rewrite Hv].
    intros v' [= <-]. by apply (Hok v).
  - unfold view_event. destruct (view s) as [v|] eqn:Hv; [|by rewrite Hv]. case_match; [|by rewrite Hv].
    intros v' [= <-]. destruct e; by apply (Hok v).
  - unfold view_event. destruct (view s) as [v|] eqn:Hv; [|by rewrite Hv]. case_match; [|by rewrite Hv].
    intros v' [= <-]. unfold Renderer.handleCompareMove. case_match; [|by apply (Hok v)].
    by apply Renderer.compare_position_bounded.
  - unfold view_event. destruct (view s) as [v|] eqn:Hv; [|by rewrite Hv]. case_match; [|by rewrite Hv].
    intros v' [= <-]. unfold Renderer.handleTouchMove. case_match; [|by apply (Hok v)].
    by apply Renderer.compare_position_bounded.
  - unfold view_event. destruct (view s) as [v|] eqn:Hv; [|by rewrite Hv]. case_match; [|by rewrite Hv].
    intros v' [= <-]. by apply (Hok v).
  - unfold click_tab. case_decide; [done|]. destruct t.
    + case_match. intros v' [= <-]. simpl. lra.
    + done.
  - done.
Qed.

(** C15: on every page reached by events whose pointer positions come
    from a container of positive width, the slider position of the
    mounted ProcessedImage is a finite number in [[0, 100]]. *)
Theorem slider_position_in_range s v :
  reachable_by positive_width s -> view s = Some v ->
  JsNumber.in_range 0 100 (Renderer.comparePosition v).
Proof.
  intros Hr. revert v. change (slider_ok (view s)).
  induction Hr as [|s e Hr IH Hw].
  - intros v [= <-]. simpl. lra.
  - by apply slider_ok_step.
Qed.

(** ** Revocations are permanent *)

Lemma run_preview_effect_revoked fs bs u :
  u ∈ ObjectURL.revoked bs -> u ∈ ObjectURL.revoked (run_preview_effect fs bs).2.
Proof.
  intros Hu. unfold run_preview_effect.
  destruct (preview_cleanup fs), (selectedFile fs); simpl; set_solver.
Qed.

Lemma commit_form_revoked old fs bs u :
  u ∈ ObjectURL.revoked bs -> u ∈ ObjectURL.revoked (commit_form old fs bs).2.
Proof.
  intros Hu. unfold commit_form. case_decide; [done|]. by apply run_preview_effect_revoked.
Qed.

Lemma form_event_revoked h s u :
  u ∈ ObjectURL.revoked (blobs s) -> u ∈ ObjectURL.revoked (blobs (form_event h s)).
Proof.
  intros Hu. unfold form_event. destruct (form s) as [[i fs]|]; [|done].
  destruct (h fs) as [fs1 cs]. pose proof (commit_form_revoked fs fs1 (blobs s) u Hu).
  destruct (commit_form fs fs1 (blobs s)). by rewrite (proj1 (proj2 (update_app_frame _ _))).
Qed.

Lemma step_revoked s e u :
  u ∈ ObjectURL.revoked (blobs s) -> u ∈ ObjectURL.revoked (blobs (step s e)).
Proof.
  intros Hu. destruct e; cbn [step].
  1-5: by apply form_event_revoked.
  - unfold click_filter. destruct (form s) as [[i fs]|]; [|done]. case_match; [done|].
    unfold handleUpload_start. destruct (selectedFile fs); simpl; done.
  - destruct (find_request id (pending s)) as [r|] eqn:Hf.
    + change (settle id o s) with (step s (Settle id o)).
      by rewrite (proj1 (proj2 (proj2 (proj2 (settle_facts s id o r Hf))))).
    + unfold settle. by rewrite Hf.
  - unfold view_event; destruct (view s); [case_match|]; done.
  - unfold view_event; destruct (view s); [case_match|]; done.
  - unfold view_event; destruct (view s); [case_match|]; done.
  - unfold view_event; destruct (view s); [case_match|]; done.
  - unfold view_event; destruct (view s); [case_match|]; done.
  - unfold click_tab. case_decide; [done|]. destruct t.
    + destruct (run_preview_effect init_form (blobs s)) as [fs bs] eqn:E. simpl.
      pose proof (run_preview_effect_revoked init_form (blobs s) u Hu) as Hrv.
      by rewrite E in Hrv.
    + simpl. destruct (form s) as [[i fs]|]; [|done]. unfold unmount_form.
      destruct (preview_cleanup fs); simpl; set_solver.
  - done.
Qed.

Lemma run_revoked s es u :
  u ∈ ObjectURL.revoked (blobs s) -> u ∈ ObjectURL.revoked (blobs (run s es)).
Proof.
  revert s. induction es as [|e es IH]; intros s Hu; [done|]. apply IH. by apply step_revoked.
Qed.

(** In a reachable page a revoked URL is never the preview again. *)
Lemma revoked_not_preview s u i fs :
  reachable s -> u ∈ ObjectURL.revoked (blobs s) -> form s = Some (i, fs) ->
  preview fs ≠ Some u.
Proof.
  intros Hr Hu Hf Hp. destruct (reachable_by_inv _ _ Hr) as (_ & Hb & _).
  pose proof Hb as (_ & Hpc & _ & Hdis & _).
  rewrite (Hpc i fs Hf) in Hp.
  by apply (Hdis u); [eapply cleanup_live|].
Qed.

(** C16: when a second file is dropped and accepted, the preview URL
    of the first is revoked exactly once (it is in the revocation log,
    which has no duplicates), is no longer live, and is never the
    preview again, whatever happens next. *)
Theorem second_selection_revokes_first s i fs u g rest :
  reachable s -> form s = Some (i, fs) -> preview fs = Some u ->
  selectedFile fs ≠ Some g ->
  (file_size g <= MAX_SIZE)%N -> allowed_file (file_name g) = true ->
  let s' := step s (Drop (g :: rest)) in
  u ∈ ObjectURL.revoked (blobs s') /\ NoDup (ObjectURL.revoked (blobs s')) /\
  u ∉ ObjectURL.live (blobs s') /\
  forall es j fs', form (run s' es) = Some (j, fs') -> preview fs' ≠ Some u.
Proof.
  intros Hr Hf Hp Hne Hsz Hok. cbv zeta.
  pose proof (reachable_by_inv _ _ Hr) as (_ & Hb & _). rewrite Hf in Hb.
  pose proof Hb as (_ & Hpc & _). rewrite (Hpc i fs eq_refl) in Hp.
  assert (Hr' : reachable (step s (Drop (g :: rest)))) by (by constructor).
  assert (Hu : u ∈ ObjectURL.revoked (blobs (step s (Drop (g :: rest))))).
  { cbn [step].
    destruct (form_event_facts (handleDrop (g :: rest)) s i fs _ _ Hf
                (handleDrop_accepted fs g rest Hsz Hok)) as (_ & _ & _ & _ & -> & _).
    unfold commit_form. rewrite decide_False by (simpl; congruence).
    unfold run_preview_effect. simpl. rewrite Hp. simpl. set_solver. }
  destruct (reachable_by_inv _ _ Hr') as (_ & (Hl & _ & Hnd & Hdis & _) & _).
  split_and!; [done | done | by intros Hlive%Hdis |].
  intros es j fs' Hf'. eapply revoked_not_preview; [by apply reachable_run | | done].
  by apply run_revoked.
Qed.

(** ** Witnesses on concrete pages *)

Lemma live_urls_are_preview_witness :
  ObjectURL.live (blobs (run init_sys [Drop [cat_png]])) = {[0]}.
Proof.
  destruct (live_urls_are_preview (run init_sys [Drop [cat_png]])
              (reachable_run _ _ (reachable_init _))) as [H _].
  rewrite H. reflexivity.
Defined.

Lemma about_tab_no_live_url_witness :
  ObjectURL.live (blobs (run init_sys [Drop [cat_png]; ClickTab TabAbout])) = ∅.
Proof.
  apply about_tab_no_live_url; [apply reachable_run, reachable_init | reflexivity].
Defined.

Lemma click_without_file_inert_witness : step init_sys (ClickFilter Catalog.Blur) = init_sys.
Proof. apply (click_without_file_inert init_sys 0 init_form); reflexivity. Defined.

Lemma set_view_mode_idempotent_witness :
  step init_sys (ClickViewMode Renderer.SideBySide) = init_sys.
Proof. apply (set_view_mode_idempotent init_sys Renderer.init_view); reflexivity. Defined.

(** The specification's example: [blur] applied to [cat.png]. *)
Lemma upload_success_shows_result_witness :
  exists v',
    view (run (run init_sys [Drop [cat_png]])
              [ClickFilter Catalog.Blur; Settle 0 (Response true None)]) = Some v' /\
    Renderer.shown_processed
      (Renderer.render
         (pimg_props (app (run (run init_sys [Drop [cat_png]])
                            [ClickFilter Catalog.Blur; Settle 0 (Response true None)]))) v') =
      ["http://127.0.0.1:5000/processed/blur_cat.png"].
Proof.
  destruct (upload_success_shows_result (run init_sys [Drop [cat_png]]) 0 _ cat_png
              Renderer.init_view Catalog.Blur None eq_refl eq_refl eq_refl eq_refl
              ltac:(discriminate)) as (_ & _ & _ & _ & _ & H).
  exact H.
Defined.

Lemma network_failure_keeps_result_witness :
  filter (app (step (run init_sys [Drop [cat_png]; ClickFilter Catalog.Blur])
                 (Settle 0 NetworkError))) = None.
Proof.
  destruct (network_failure_keeps_result (run init_sys [Drop [cat_png]; ClickFilter Catalog.Blur])
              0 _ eq_refl) as (_ & H & _).
  rewrite H. reflexivity.
Defined.

Lemma overlapping_submissions_clear_flag_witness :
  isProcessing (app (run (run init_sys [Drop [cat_png]])
                      [ClickFilter Catalog.Blur; ClickFilter Catalog.Sharpen;
                       Settle 0 (Response true None)])) = false.
Proof.
  destruct (overlapping_submissions_clear_flag (run init_sys [Drop [cat_png]]) 0 _ cat_png
              Catalog.Blur Catalog.Sharpen (Response true None) eq_refl eq_refl eq_refl)
    as [H _].
  exact H.
Defined.

Lemma late_response_spares_new_form_witness :
  form (step (run init_sys [Drop [cat_png]; ClickFilter Catalog.Blur;
                            ClickTab TabAbout; ClickTab TabUpload]) (Settle 0 NetworkError))
  = Some (1, init_form) /\
  isProcessing (app (step (run init_sys [Drop [cat_png]; ClickFilter Catalog.Blur;
                                         ClickTab TabAbout; ClickTab TabUpload])
                          (Settle 0 NetworkError))) = false.
Proof.
  destruct (late_response_spares_new_form
           (run init_sys [Drop [cat_png]; ClickFilter Catalog.Blur;
                          ClickTab TabAbout; ClickTab TabUpload])
           0 NetworkError _ 1 init_form eq_refl eq_refl ltac:(discriminate)) as [H1 H2].
  split; [exact H1|]. rewrite H2. reflexivity.
Defined.

Lemma new_selection_pairs_old_filter_witness :
  filename (app (step (run init_sys [Drop [cat_png]; ClickFilter Catalog.Blur;
                                     Settle 0 (Response true None)]) (FileChange [dog_png]))) =
    Some "dog.png" /\
  filter (app (step (run init_sys [Drop [cat_png]; ClickFilter Catalog.Blur;
                                   Settle 0 (Response true None)]) (FileChange [dog_png]))) =
    Some "blur".
Proof.
  destruct (new_selection_pairs_old_filter
              (run init_sys [Drop [cat_png]; ClickFilter Catalog.Blur; Settle 0 (Response true None)])
              0 _ dog_png "blur" eq_refl eq_refl ltac:(discriminate) eq_refl ltac:(discriminate)
              ltac:(vm_compute; discriminate))
    as (H1 & H2 & _).
  split; [exact H1 | exact H2].
Defined.

Lemma settling_all_clears_witness :
  isProcessing (app (run (run init_sys [Drop [cat_png]; ClickFilter Catalog.Blur;
                                        ClickFilter Catalog.Sharpen])
                      (settle_all (fun _ => NetworkError)
                         (reverse (pending (run init_sys [Drop [cat_png]; ClickFilter Catalog.Blur;
                                                          ClickFilter Catalog.Sharpen])))))) = false.
Proof.
  destruct (settling_all_clears
              (run init_sys [Drop [cat_png]; ClickFilter Catalog.Blur; ClickFilter Catalog.Sharpen])
              (fun _ => NetworkError) _
              (reachable_run _ _ (reachable_init _)) (reverse_Permutation _)
              ltac:(vm_compute; discriminate)) as [_ H].
  exact H.
Defined.

Lemma slider_position_in_range_witness :
  match view (run init_sys [Drop [cat_png]; ClickFilter Catalog.Blur; Settle 0 (Response true None);
                            ClickViewMode Renderer.Comparison; Pointer Renderer.MouseDown;
                            MouseMove 260 0 200]) with
  | Some v => JsNumber.in_range 0 100 (Renderer.comparePosition v)
  | None => False
  end.
Proof.
  destruct (view (run init_sys _)) as [v|] eqn:Hv; [|vm_compute in Hv; discriminate].
  refine (slider_position_in_range _ v _ Hv).
  apply reachable_by_run; [apply reachable_init|].
  repeat (constructor; [cbv [positive_width]; first [exact I | reflexivity] |]).
  constructor.
Defined.

Lemma second_selection_revokes_first_witness :
  0 ∈ ObjectURL.revoked (blobs (step (run init_sys [Drop [cat_png]]) (Drop [dog_png]))).
Proof.
  destruct (second_selection_revokes_first (run init_sys [Drop [cat_png]]) 0 _ 0 dog_png []
              (reachable_run _ _ (reachable_init _)) eq_refl eq_refl ltac:(discriminate)
              ltac:(vm_compute; discriminate) ltac:(vm_compute; reflexivity)) as [H _].
  exact H.
Defined.

End PageProperties.
