(* ===== verification/Interaction.v ===== *)
(** * Interaction: the comparison renderer as the user drives it

    Theorems about the events ProcessedImage handles (the view-mode
    buttons, press and release on the comparison container, mouse and
    touch moves), stated on [System.step]: a drag ends on release, on
    leaving the container and on touch end, keeping the slider where it
    was; and the view mode can only be changed while a result is on
    screen. *)

From stdpp Require Import base list strings gmap sets.
From Stdlib Require Import QArith Ascii.
From S2P Require Import Prelude JsRuntime Catalog Ingestion Submission Renderer System.

Module Interaction.

Import Ingestion Submission System.

#[local] Open Scope nat_scope.

(** The events that end a drag. *)
Definition drag_end (pe : Renderer.pointer_event) : bool :=
  match pe with
  | Renderer.MouseUp | Renderer.MouseLeave | Renderer.TouchEnd => true
  | _ => false
  end.

Definition cat_png : file := {| file_id := 1; file_name := "cat.png"; file_size := 1024 |}.

(** A result on screen in the comparison view. *)
Definition comparing_session : list event :=
  [Drop [cat_png]; ClickFilter Catalog.Blur; Settle 0 (Response true None);
   ClickViewMode Renderer.Comparison; Pointer Renderer.MouseDown; MouseMove 50 0 200].

(** ** Lemmas *)

Lemma with_view_same s v : view s = Some v -> with_view (Some v) s = s.
Proof. intros Hv. destruct s; simpl in *. by subst. Qed.

(** A handler that leaves the state alone leaves the page alone. *)
Lemma view_event_id shown h s v :
  view s = Some v -> h v = v -> view_event shown h s = s.
Proof.
  intros Hv Hh. unfold view_event. rewrite Hv, Hh.
  case_match; [by apply with_view_same | done].
Qed.

Lemma handleCompareMove_idle x l w v :
  Renderer.isComparing v = false -> Renderer.handleCompareMove x l w v = v.
Proof. intros H. unfold Renderer.handleCompareMove. by rewrite H. Qed.

Lemma handleTouchMove_idle x l w v :
  Renderer.isComparing v = false -> Renderer.handleTouchMove x l w v = v.
Proof. intros H. unfold Renderer.handleTouchMove. by rewrite H. Qed.

(** ** Properties *)

(** C36: a drag ends on mouse up, on leaving the container and on
    touch end: tracking stops, the slider keeps its last position and
    the view mode, and later mouse or touch moves change nothing. *)
Theorem drag_end_retains s v pe :
  view s = Some v -> drag_end pe = true ->
  Renderer.slider_shown (Renderer.render (pimg_props (app s)) v) = true ->
  exists v',
    view (step s (Pointer pe)) = Some v' /\
    Renderer.isComparing v' = false /\
    Renderer.comparePosition v' = Renderer.comparePosition v /\
    Renderer.viewMode v' = Renderer.viewMode v /\
    (forall x l w, step (step s (Pointer pe)) (MouseMove x l w) = step s (Pointer pe) /\
                   step (step s (Pointer pe)) (TouchMove x l w) = step s (Pointer pe)).
Proof.
  intros Hv Hpe Hshown. set (v' := Renderer.handlePointer pe v).
  assert (Hc : Renderer.isComparing v' = false) by (by destruct pe).
  assert (Hs : view (step s (Pointer pe)) = Some v').
  { simpl. unfold view_event. by rewrite Hv, Hshown. }
  exists v'. split_and!; [done | done | by destruct pe | by destruct pe |].
  intros x l w. simpl. split.
  - apply (view_event_id _ _ _ v'); [done | by apply handleCompareMove_idle].
  - apply (view_event_id _ _ _ v'); [done | by apply handleTouchMove_idle].
Qed.

(** C37: the view mode can be changed only while a result is on
    screen: with no filter published, or while a request is in
    flight, the toggle is not rendered and a click on it changes
    nothing. *)
Theorem set_mode_needs_result s v m :
  view s = Some v ->
  JsString.truthy (filter (app s)) = false \/ isProcessing (app s) = true ->
  step s (ClickViewMode m) = s.
Proof.
  intros Hv Hnr. simpl. unfold view_event. rewrite Hv.
  unfold Renderer.toggle_shown, Renderer.render, pimg_props. simpl.
  destruct (JsString.truthy (filename (app s))); simpl; [|done].
  destruct Hnr as [-> | ->]; simpl; [done|]. by rewrite andb_false_r.
Qed.

(** ** Witnesses *)

Lemma drag_end_retains_witness :
  exists v',
    view (step (run init_sys comparing_session) (Pointer Renderer.MouseLeave)) = Some v' /\
    Renderer.isComparing v' = false /\
    Renderer.comparePosition v' = JsNumber.Fin 25.
Proof.
  destruct (drag_end_retains (run init_sys comparing_session)
              (Renderer.setComparePosition (JsNumber.Fin 25)
                 (Renderer.setIsComparing true
                    (Renderer.setViewMode Renderer.Comparison Renderer.init_view)))
              Renderer.MouseLeave)
    as (v' & H1 & H2 & H3 & _); [vm_compute; reflexivity | reflexivity | vm_compute; reflexivity |].
  exists v'. split_and!; [exact H1 | exact H2 | exact H3].
Defined.

Lemma set_mode_needs_result_witness :
  step init_sys (ClickViewMode Renderer.Comparison) = init_sys.
Proof.
  apply (set_mode_needs_result init_sys Renderer.init_view); [reflexivity | left; reflexivity].
Defined.

End Interaction.
