(* ===== verification/Refinement.v ===== *)
(** * Refinement: the page against the specification's ProcessingState

    The specification describes the submission lifecycle as an abstract
    machine on [ProcessingState]: [Idle], [InFlight], [Succeeded(name,
    filter)], [Failed(message)]; a submission moves to [InFlight]
    before any network I/O, and the resolution of an in-flight
    submission moves to exactly one terminal state.  This file states
    that machine ([pstate], [aevent], [astep]), maps each event of the
    page to the abstract event it performs ([abs_event]: a click on an
    enabled filter button submits, the settling of the request in
    flight resolves it, every other event is silent), and proves that
    [System.step] simulates [astep] under sequential use (no click on a
    filter button while a request is in flight): the relation [R]
    between abstract and concrete states is preserved by every step and
    holds along every sequential run from the initial page.

    The relation keeps the flag [isProcessing], the requests in flight
    and the published [filter]; a concrete [filename] is related to the
    abstract result only at the step that publishes it, because the
    code also writes [filename] when a file is selected (see
    [PageProperties.new_selection_pairs_old_filter]).  The message of a
    failure is the form's [error], which later events may clear; its
    value on each path is the subject of
    [Submission.handleUpload_finish_errors], so [Failed] carries no
    message here. *)

From stdpp Require Import base list strings sets.
From S2P Require Import Prelude JsRuntime Catalog Ingestion Submission Renderer System.

Module Refinement.

Import Ingestion Submission System.

(** ** The abstract machine of the specification *)

Inductive pstate :=
  | Idle
  | InFlight (fn fl : string)
  | Succeeded (fn fl : string)
  | Failed.

Inductive aevent :=
  | Submit (fn fl : string)
  | Resolve (o : outcome).

(** A well-formed success response: a 2xx answer whose [success] flag
    is set. *)
Definition succeeded (o : outcome) : bool :=
  match o with Response true _ => true | _ => false end.

(** [InFlight] remembers the submission so that [Succeeded] can
    expose the pair it was made with. *)
Definition astep (a : pstate) (e : aevent) : pstate :=
  match e, a with
  | Submit fn fl, _ => InFlight fn fl
  | Resolve o, InFlight fn fl => if succeeded o then Succeeded fn fl else Failed
  | Resolve _, _ => a
  end.

Definition astep_opt (a : pstate) (e : option aevent) : pstate :=
  match e with Some e => astep a e | None => a end.

(** ** From page events to abstract events *)

Definition abs_event (s : sys) (e : event) : option aevent :=
  match e with
  | ClickFilter k =>
      match form s with
      | Some (_, fs) =>
          match selectedFile fs with
          | Some f => Some (Submit (file_name f) (Catalog.filter_key k))
          | None => None
          end
      | None => None
      end
  | Settle id o =>
      match find_request id (pending s) with
      | Some _ => Some (Resolve o)
      | None => None
      end
  | _ => None
  end.

(** Sequential use: a filter button is clicked only when no request
    is in flight. *)
Definition seq_ok (s : sys) (e : event) : bool :=
  match e with
  | ClickFilter _ => match pending s with [] => true | _ => false end
  | _ => true
  end.

Fixpoint sequential (s : sys) (es : list event) : bool :=
  match es with
  | [] => true
  | e :: es' => seq_ok s e && sequential (step s e) es'
  end.

(** The abstract run along a concrete run. *)
Fixpoint abs_run (a : pstate) (s : sys) (es : list event) : pstate :=
  match es with
  | [] => a
  | e :: es' => abs_run (astep_opt a (abs_event s e)) (step s e) es'
  end.

(** ** Sample sessions *)

Definition cat_png : file := {| file_id := 1; file_name := "cat.png"; file_size := 1024 |}.

(** Select, submit with "blur", and the request in flight. *)
Definition submitted : list event := [Drop [cat_png]; ClickFilter Catalog.Blur].

(** The same, answered with success. *)
Definition answered : list event := submitted ++ [Settle 0 (Response true None)].

(** After the success, a second submission that fails in transport. *)
Definition stale_session : list event :=
  answered ++ [ClickFilter Catalog.Sharpen; Settle 1 NetworkError].

(** ** The simulation relation *)

Definition posts (r : request) (fn fl : string) : Prop :=
  file_name (post_file (req_post r)) = fn /\ post_filter (req_post r) = fl.

Definition R (a : pstate) (s : sys) : Prop :=
  match a with
  | Idle => isProcessing (app s) = false /\ pending s = [] /\ filter (app s) = None
  | InFlight fn fl =>
      isProcessing (app s) = true /\ exists r, pending s = [r] /\ posts r fn fl
  | Succeeded _ fl =>
      isProcessing (app s) = false /\ pending s = [] /\ filter (app s) = Some fl /\
      is_Some (filename (app s))
  | Failed => isProcessing (app s) = false /\ pending s = []
  end.

(** What a silent event keeps of the lifecycle. *)
Definition same_lifecycle (s s' : sys) : Prop :=
  isProcessing (app s') = isProcessing (app s) /\ filter (app s') = filter (app s) /\
  pending s' = pending s /\ (is_Some (filename (app s)) -> is_Some (filename (app s'))).

(** ** Lemmas *)

Lemma apply_filename_cmds a cs :
  Forall (fun c => exists n, c = SetFilename n) cs ->
  isProcessing (apply_cmds a cs) = isProcessing a /\ filter (apply_cmds a cs) = filter a /\
  (is_Some (filename a) -> is_Some (filename (apply_cmds a cs))).
Proof.
  unfold apply_cmds. intros Hcs. revert a. induction Hcs as [|c cs [n ->] _ IH]; intros a; [done|].
  cbn [fold_left]. destruct (IH (apply_cmd a (SetFilename n))) as (-> & -> & H).
  split_and!; [done | done | intros _; apply H; simpl; eauto].
Qed.

Lemma form_event_lifecycle h `{!IngestionHandler h} s : same_lifecycle s (form_event h s).
Proof.
  unfold same_lifecycle. destruct (form s) as [[i fs]|] eqn:Hf.
  - destruct (h fs) as [fs1 cs] eqn:Hhf.
    destruct (form_event_facts h s i fs fs1 cs Hf Hhf) as (-> & -> & _).
    pose proof (handler_filename_only (h := h) fs) as Hc. rewrite Hhf in Hc.
    destruct (apply_filename_cmds (app s) cs Hc) as (? & ? & ?). by split_and!.
  - unfold form_event. rewrite Hf. by split_and!.
Qed.

Lemma view_event_lifecycle shown h s : same_lifecycle s (view_event shown h s).
Proof.
  unfold view_event. destruct (view s); [case_match|]; by split_and!.
Qed.

Lemma click_tab_lifecycle t s : same_lifecycle s (click_tab t s).
Proof.
  unfold click_tab. case_decide; [by split_and!|].
  destruct t; [destruct (run_preview_effect _ _)|]; by split_and!.
Qed.

(** Every event that [abs_event] maps to nothing keeps the lifecycle. *)
Lemma silent_step s e :
  abs_event s e = None -> seq_ok s e = true -> same_lifecycle s (step s e).
Proof.
  intros Habs Hseq. destruct e; simpl in *;
    try (apply form_event_lifecycle; apply _); try apply view_event_lifecycle;
    try apply click_tab_lifecycle.
  - unfold click_filter.
    destruct (form s) as [[i fs]|]; [|by split_and!].
    destruct (selectedFile fs); [done|]. by split_and!.
  - unfold settle. destruct (find_request id (pending s)); [done|]. by split_and!.
  - by split_and!.
Qed.

Lemma R_same_lifecycle a s s' : R a s -> same_lifecycle s s' -> R a s'.
Proof.
  intros HR (Hp & Hf & Hq & Hn). destruct a; simpl in *; rewrite ?Hp, ?Hf, ?Hq; naive_solver.
Qed.

(** The requests in flight hold only the submitted one. *)
Lemma find_single id r r' :
  find_request id [r] = Some r' -> r' = r /\ req_id r = id.
Proof.
  unfold find_request. simpl. destruct (Nat.eqb_spec (req_id r) id); naive_solver.
Qed.

Lemma settle_single s id o r :
  pending s = [r] -> find_request id (pending s) = Some r ->
  app (step s (Settle id o)) = apply_cmds (app s) (handleUpload_finish (req_post r) o).1 /\
  pending (step s (Settle id o)) = [].
Proof.
  intros Hp Hfind. destruct (settle_facts s id o r Hfind) as (-> & -> & _).
  split; [done|]. rewrite Hp in Hfind |- *. apply find_single in Hfind as [_ <-].
  simpl. by rewrite Nat.eqb_refl.
Qed.

(** The abstract event of a step is the one [astep] needs. *)
Lemma step_refines_visible a s e ae :
  R a s -> seq_ok s e = true -> abs_event s e = Some ae -> R (astep a ae) (step s e).
Proof.
  intros HR Hseq Habs. destruct e; simpl in Habs; try discriminate.
  - destruct (form s) as [[i fs]|] eqn:Hf; [|done].
    destruct (selectedFile fs) as [f|] eqn:Hs; [|done]. injection Habs as <-.
    simpl in Hseq. destruct (pending s) eqn:Hp; [|done].
    cbn [astep R]. destruct (click_filter_facts s i fs f k Hf Hs) as (-> & _ & _ & -> & _).
    simpl. split; [done|]. rewrite Hp. eexists; split; [done|]. by split.
  - destruct (find_request id (pending s)) as [r|] eqn:Hfind; [|done].
    injection Habs as <-.
    destruct a as [| fn fl | fn fl |]; cbn [astep R] in HR |- *;
      try (assert (pending s = []) as Hp by naive_solver; rewrite Hp in Hfind; discriminate).
    destruct HR as (_ & r0 & Hp & Hpost). rewrite Hp in Hfind.
    pose proof Hfind as [-> _]%find_single. rewrite <- Hp in Hfind.
    destruct (settle_single s id o r0 Hp Hfind) as [Ha Hq].
    destruct Hpost as [<- <-].
    destruct o as [[|] e|e|]; cbn [succeeded R]; rewrite Ha, Hq; simpl; split_and!; eauto.
Qed.

Lemma step_sim a s e :
  R a s -> seq_ok s e = true -> R (astep_opt a (abs_event s e)) (step s e).
Proof.
  intros HR Hseq. destruct (abs_event s e) as [ae|] eqn:Habs; simpl.
  - by apply step_refines_visible.
  - eapply R_same_lifecycle; [done | by apply silent_step].
Qed.

Lemma run_sim es a s :
  R a s -> sequential s es = true -> R (abs_run a s es) (run s es).
Proof.
  revert a s. induction es as [|e es IH]; intros a s HR Hseq; [done|].
  simpl in Hseq. apply andb_prop in Hseq as [He Hes].
  apply IH; [by apply step_sim | done].
Qed.

Lemma R_init : R Idle init_sys.
Proof. by split_and!. Qed.

Lemma find_request_head r : find_request (req_id r) [r] = Some r.
Proof. unfold find_request. simpl. by rewrite Nat.eqb_refl. Qed.

(** ** The refinement theorems *)

(** C9: under sequential use, every run of the page from the initial
    state is related by [R] to the run of the specification's machine
    on the abstract events it performs: [isProcessing] is true exactly
    in [InFlight], with the submitted request as the only one in
    flight; [Idle] publishes no filter; [Succeeded] publishes its
    filter; no request is in flight outside [InFlight]. *)
Theorem sequential_run_refines (es : list event) :
  sequential init_sys es = true ->
  R (abs_run Idle init_sys es) (run init_sys es).
Proof. intros Hseq. apply run_sim; [apply R_init | done]. Qed.

(** C11: a submission in flight always resolves: its request can
    settle with any outcome, and settling it performs the abstract
    [Resolve], reaching [Succeeded] with the submitted pair on a
    success and [Failed] otherwise, never [InFlight] again. *)
Theorem inflight_resolves (s : sys) (fn fl : string) :
  R (InFlight fn fl) s ->
  exists id, forall o,
    abs_event s (Settle id o) = Some (Resolve o) /\
    R (if succeeded o then Succeeded fn fl else Failed) (step s (Settle id o)).
Proof.
  intros HR. pose proof HR as (_ & r & Hp & _). exists (req_id r). intros o.
  assert (Hfind : find_request (req_id r) (pending s) = Some r)
    by (rewrite Hp; apply find_request_head).
  split; [simpl; by rewrite Hfind|].
  apply (step_refines_visible (InFlight fn fl) s (Settle (req_id r) o) (Resolve o) HR);
    [done | simpl; by rewrite Hfind].
Qed.

(** C12: the success step exposes the pair of the submission: after
    the request in flight settles with a 2xx [success] response, App
    holds [filename = name] and [filter = filter] of that submission
    and [isProcessing] is false. *)
Theorem publish_on_success (s : sys) (fn fl : string) (id : nat) (r : request)
    (e : option string) :
  R (InFlight fn fl) s -> find_request id (pending s) = Some r ->
  let a := app (step s (Settle id (Response true e))) in
  filename a = Some fn /\ filter a = Some fl /\ isProcessing a = false.
Proof.
  intros (_ & r0 & Hp & Hpost) Hfind.
  pose proof Hfind as Hfind0. rewrite Hp in Hfind0. apply find_single in Hfind0 as [-> _].
  destruct (settle_single s id (Response true e) r0 Hp Hfind) as [-> _].
  destruct Hpost as [<- <-]. done.
Qed.

(** The specification's rendering invariant fails in [Failed]: after a
    success and a later submission that fails in transport, the
    abstract state is [Failed] but the processed image of the earlier
    success is still on screen. *)
Example failed_keeps_stale_result :
  sequential init_sys stale_session = true /\
  abs_run Idle init_sys stale_session = Failed /\
  option_map Renderer.shown_processed (shown_view (run init_sys stale_session)) =
    Some ["http://127.0.0.1:5000/processed/blur_cat.png"].
Proof. vm_compute. split_and!; reflexivity. Qed.

(** ** Witnesses *)

Lemma sequential_run_refines_witness :
  R (abs_run Idle init_sys answered) (run init_sys answered).
Proof. apply (sequential_run_refines answered). vm_compute. reflexivity. Defined.

Lemma inflight_resolves_witness :
  exists id,
    abs_event (run init_sys submitted) (Settle id NetworkError) = Some (Resolve NetworkError) /\
    R Failed (step (run init_sys submitted) (Settle id NetworkError)).
Proof.
  destruct (inflight_resolves (run init_sys submitted) "cat.png" "blur") as [id H].
  - vm_compute. split; [reflexivity|]. eexists. split; [reflexivity | split; reflexivity].
  - exists id. exact (H NetworkError).
Defined.

Lemma publish_on_success_witness :
  filename (app (step (run init_sys submitted) (Settle 0 (Response true None)))) = Some "cat.png".
Proof.
  refine (proj1 (publish_on_success (run init_sys submitted) "cat.png" "blur" 0
    {| req_id := 0; req_form := 0;
       req_post := {| post_file := cat_png; post_filter := "blur" |} |} None _ _)).
  - vm_compute. split; [reflexivity|]. eexists. split; [reflexivity | split; reflexivity].
  - vm_compute. reflexivity.
Defined.

End Refinement.
